(** * SubjectiveBitBucketDataSource: a shallow embedding in Rocq

    The adapter of [src/SubjectiveBitBucketDataSource.py] lists the
    repositories of a Bitbucket user page by page and clones each one with
    [git].  Its effects (filesystem, HTTP, subprocess, logging) are modelled
    by a state and error monad over:
    - a read-only [world] that answers the external calls (the outcome of
      [os.makedirs], the n-th HTTP response, the n-th [subprocess.run]);
    - a [state] holding the filesystem, the object's [self.params], the
      trace of observable events, and the counters of external calls.
    The unbounded [while True] loop of [get_repos] runs on fuel: running out
    of fuel is the outcome [NoFuel], which is not a Python behaviour but the
    marker of a loop that has not ended yet. *)

From Stdlib Require Import String List ZArith Bool Lia Ascii.
From Stdlib Require Import Strings.Byte.
Import ListNotations.
Set Warnings "-register-all".
Open Scope string_scope.
Open Scope list_scope.

(** ** JSON values as returned by [response.json()] *)

Inductive json : Type :=
| JNull
| JBool (b : bool)
| JNum (n : Z)
| JStr (s : string)
| JList (l : list json)
| JObj (kvs : list (string * json)).

Fixpoint assoc (k : string) (kvs : list (string * json)) : option json :=
  match kvs with
  | [] => None
  | (k', v) :: rest => if String.eqb k k' then Some v else assoc k rest
  end.

(** Python truthiness of a JSON value ([if x:] / [if not x:]). *)
Definition truthy (v : json) : bool :=
  match v with
  | JNull => false
  | JBool b => b
  | JNum n => negb (Z.eqb n 0)
  | JStr s => negb (String.eqb s EmptyString)
  | JList l => match l with [] => false | _ => true end
  | JObj kvs => match kvs with [] => false | _ => true end
  end.

(** ** Paths and the filesystem *)

(** A path as its list of components; [os.makedirs] creates every prefix. *)
Definition path := list string.

Inductive node : Type :=
| NDir
| NFile (contents : string).

Definition path_eqb (p q : path) : bool :=
  if list_eq_dec string_dec p q then true else false.

(** ** SyncParameters ([self.params]) *)

Record sync_params : Type := {
  username : string;
  token : string;
  target_directory : path
}.

(** ** Log messages (the f-strings passed to [BBLogger.log]) *)

Inductive msg : Type :=
| M_start (user : string) (target : path)
| M_created (target : path)
| M_mkdir_failed (target : path) (err : string)
| M_not_dir (target : path)
| M_no_repos (user : string)
| M_found (n : nat)
| M_no_clone_url (name : json)
| M_all_done
| M_fetch_page (page : nat) (user : string)
| M_no_more
| M_user_not_found (user : string)
| M_forbidden
| M_http_failed (status : Z)
| M_cloning (name : json) (url : json)
| M_cloned (name : json)
(** [e.stderr.decode().strip()]: the message holds the captured bytes. *)
| M_clone_error (name : json) (stderr : list byte)
| M_clone_unexpected (name : json) (err : string).

(** ** Python exceptions raised along the paths of the adapter *)

Inductive exn : Type :=
| OSError (err : string)
| NotADirectoryError (m : msg)
| ValueError (m : msg)
| PermissionError (m : msg)
| ConnectionError (m : msg)
| IndexError
| KeyError
| AttributeError
| TypeError
| CalledProcessError (returncode : Z) (stderr : list byte)
| UnicodeDecodeError.

(** [NotADirectoryError], [PermissionError] and [ConnectionError] are
    subclasses of [OSError]. *)
Definition is_oserror (e : exn) : bool :=
  match e with
  | OSError _ | NotADirectoryError _ | PermissionError _
  | ConnectionError _ => true
  | _ => false
  end.

(** [str(e)] of an exception, as far as the log messages need it. *)
Definition exn_text (e : exn) : string :=
  match e with
  | OSError m => m
  | NotADirectoryError _ => "NotADirectoryError"
  | ValueError _ => "ValueError"
  | PermissionError _ => "PermissionError"
  | ConnectionError _ => "ConnectionError"
  | IndexError => "IndexError"
  | KeyError => "KeyError"
  | AttributeError => "AttributeError"
  | TypeError => "TypeError"
  | CalledProcessError _ _ => "CalledProcessError"
  | UnicodeDecodeError => "UnicodeDecodeError"
  end.

(** ** External calls and observable events *)

Record request : Type := {
  rq_url : string;
  rq_auth : string;
  rq_pagelen : nat;
  rq_page : nat
}.

Record response : Type := {
  status_code : Z;
  body : json
}.

(** What [subprocess.run(..., check=True)] does: the process runs and exits
    with a code and its captured standard error, or it cannot be started
    (missing executable, bad working directory, ...). *)
Inductive run_result : Type :=
| RunExit (code : Z) (stderr : list byte)
| RunFail (err : string).

Inductive event : Type :=
| ELog (m : msg)
| EMakedirs (p : path)
| EHttpGet (rq : request)
| ERun (argv : list json) (cwd : path).

Record world : Type := {
  w_mkdir_fail : option string;
  w_http : nat -> response;
  w_run : nat -> run_result
}.

Record state : Type := {
  st_fs : path -> option node;
  st_params : sync_params;
  st_trace : list event;
  st_nhttp : nat;
  st_nrun : nat
}.

(** ** The monad *)

Inductive outcome (A : Type) : Type :=
| Ret (a : A)
| Raise (e : exn)
| NoFuel.
Arguments Ret {A} a.
Arguments Raise {A} e.
Arguments NoFuel {A}.

Definition M (A : Type) : Type := world -> state -> outcome A * state.

Definition ret {A} (a : A) : M A := fun _ s => (Ret a, s).
Definition raise {A} (e : exn) : M A := fun _ s => (Raise e, s).
Definition nofuel {A} : M A := fun _ s => (NoFuel, s).

Definition bind {A B} (m : M A) (k : A -> M B) : M B :=
  fun w s =>
    match m w s with
    | (Ret a, s') => k a w s'
    | (Raise e, s') => (Raise e, s')
    | (NoFuel, s') => (NoFuel, s')
    end.

Notation "x <- m ;; k" := (bind m (fun x => k))
  (at level 61, m at next level, right associativity).
Notation "m ;; k" := (bind m (fun _ => k))
  (at level 61, right associativity).

(** [try: m except ...]: the handler answers [Some h] for the exceptions
    it catches and [None] for those it lets through. *)
Definition try_except {A} (m : M A) (h : exn -> option (M A)) : M A :=
  fun w s =>
    match m w s with
    | (Raise e, s') =>
        match h e with
        | Some k => k w s'
        | None => (Raise e, s')
        end
    | r => r
    end.

Definition emit (e : event) : M unit :=
  fun _ s =>
    (Ret tt, {| st_fs := st_fs s; st_params := st_params s;
                st_trace := st_trace s ++ [e];
                st_nhttp := st_nhttp s; st_nrun := st_nrun s |}).

Definition log (m : msg) : M unit := emit (ELog m).

Definition get_params : M sync_params := fun _ s => (Ret (st_params s), s).

(** ** Python operations on JSON values *)

(** [d.get(k, default)]: only a dict has [.get]. *)
Definition py_get (d : json) (k : string) (default : json) : M json :=
  match d with
  | JObj kvs =>
      match assoc k kvs with
      | Some v => ret v
      | None => ret default
      end
  | _ => raise AttributeError
  end.

(** [v[0]]. *)
Definition py_index0 (v : json) : M json :=
  match v with
  | JList [] => raise IndexError
  | JList (x :: _) => ret x
  | JStr EmptyString => raise IndexError
  | JStr (String c _) => ret (JStr (String c EmptyString))
  | JObj _ => raise KeyError
  | _ => raise TypeError
  end.

Fixpoint chars (s : string) : list json :=
  match s with
  | EmptyString => []
  | String c rest => JStr (String c EmptyString) :: chars rest
  end.

(** The items [list.extend(v)] appends: the elements of a list, the
    characters of a string, the keys of a dict. *)
Definition py_iter (v : json) : M (list json) :=
  match v with
  | JList l => ret l
  | JStr s => ret (chars s)
  | JObj kvs => ret (map (fun kv => JStr (fst kv)) kvs)
  | _ => raise TypeError
  end.

(** ** Strict UTF-8 decoding ([bytes.decode()]) *)

Definition in_range (lo hi : nat) (b : byte) : bool :=
  Nat.leb lo (Byte.to_nat b) && Nat.leb (Byte.to_nat b) hi.

Definition cont (b : byte) : bool := in_range 128 191 b.

Fixpoint utf8_valid (l : list byte) : bool :=
  match l with
  | [] => true
  | b :: rest =>
      let n := Byte.to_nat b in
      if Nat.ltb n 128 then utf8_valid rest
      else if in_range 194 223 b then
        match rest with
        | c1 :: r => cont c1 && utf8_valid r
        | _ => false
        end
      else if in_range 224 239 b then
        match rest with
        | c1 :: c2 :: r =>
            (if Nat.eqb n 224 then in_range 160 191 c1
             else if Nat.eqb n 237 then in_range 128 159 c1
             else cont c1) && cont c2 && utf8_valid r
        | _ => false
        end
      else if in_range 240 244 b then
        match rest with
        | c1 :: c2 :: c3 :: r =>
            (if Nat.eqb n 240 then in_range 144 191 c1
             else if Nat.eqb n 244 then in_range 128 143 c1
             else cont c1) && cont c2 && cont c3 && utf8_valid r
        | _ => false
        end
      else false
  end.

Definition decode (l : list byte) : M (list byte) :=
  if utf8_valid l then ret l else raise UnicodeDecodeError.

(** ** Filesystem, network and subprocess primitives *)

Definition path_exists (p : path) : M bool :=
  fun _ s => (Ret (match st_fs s p with Some _ => true | None => false end), s).

Definition path_isdir (p : path) : M bool :=
  fun _ s => (Ret (match st_fs s p with Some NDir => true | _ => false end), s).

(** The proper non-empty prefixes of a path (its ancestors), shortest
    first, and with the path itself. *)
Definition proper_prefixes (p : path) : list path :=
  map (fun k => firstn k p) (seq 1 (length p - 1)).

Definition prefixes (p : path) : list path := proper_prefixes p ++ [p].

Definition is_file (o : option node) : bool :=
  match o with Some (NFile _) => true | _ => false end.

Definition set_fs (s : state) (fs : path -> option node) : state :=
  {| st_fs := fs; st_params := st_params s; st_trace := st_trace s;
     st_nhttp := st_nhttp s; st_nrun := st_nrun s |}.

(** [os.makedirs(p)]: creates every missing prefix of [p] as a directory.
    It fails on an empty path, when a proper prefix is a file, or when the
    world refuses the creation (permissions, read-only filesystem, ...). *)
Definition makedirs (p : path) : M unit :=
  emit (EMakedirs p) ;;
  fun w s =>
    match w_mkdir_fail w with
    | Some e => (Raise (OSError e), s)
    | None =>
        if match p with [] => true | _ => false end then
          (Raise (OSError "No such file or directory"), s)
        else if existsb (fun q => is_file (st_fs s q)) (proper_prefixes p)
        then (Raise (OSError "Not a directory"), s)
        else
          (Ret tt, set_fs s (fun q =>
             if existsb (path_eqb q) (prefixes p)
             then match st_fs s q with None => Some NDir | o => o end
             else st_fs s q))
    end.

(** [requests.get(url, headers=..., params=...)]: the n-th call receives
    the n-th response of the world. *)
Definition requests_get (rq : request) : M response :=
  emit (EHttpGet rq) ;;
  fun w s =>
    (Ret (w_http w (st_nhttp s)),
     {| st_fs := st_fs s; st_params := st_params s; st_trace := st_trace s;
        st_nhttp := S (st_nhttp s); st_nrun := st_nrun s |}).

(** [subprocess.run(argv, cwd=cwd, check=True, stdout=PIPE, stderr=PIPE)]:
    a non-zero exit raises [CalledProcessError]; a process that cannot be
    started raises an [OSError] such as [FileNotFoundError].  The files the
    process writes (the working copy [git clone] creates under [cwd]) are
    not modelled: [st_fs] records only what [fetch] itself checks and
    creates, so no property below speaks of the filesystem after a clone. *)
Definition subprocess_run (argv : list json) (cwd : path) : M unit :=
  emit (ERun argv cwd) ;;
  fun w s =>
    let s' := {| st_fs := st_fs s; st_params := st_params s;
                 st_trace := st_trace s; st_nhttp := st_nhttp s;
                 st_nrun := S (st_nrun s) |} in
    match w_run w (st_nrun s) with
    | RunExit code err =>
        if Z.eqb code 0 then (Ret tt, s')
        else (Raise (CalledProcessError code err), s')
    | RunFail e => (Raise (OSError e), s')
    end.

(** ** The adapter's methods *)

Definition dq : ascii := Ascii.ascii_of_nat 34.

(** Replace every backquote by a double quote: the SVG text below is written
    with backquotes where the Python literal has double quotes. *)
Fixpoint with_quotes (s : string) : string :=
  match s with
  | EmptyString => EmptyString
  | String c rest =>
      String (if Ascii.eqb c "`"%char then dq else c) (with_quotes rest)
  end.

(** The triple-quoted literal returned by [get_icon] (lines 103-118). *)
Definition fallback_svg : string := with_quotes "
<svg viewBox=`0 0 32 32` fill=`none` xmlns=`http://www.w3.org/2000/svg`>
  <g id=`SVGRepo_bgCarrier` stroke-width=`0`></g>
  <g id=`SVGRepo_tracerCarrier` stroke-linecap=`round` stroke-linejoin=`round`></g>
  <g id=`SVGRepo_iconCarrier`>
    <path d=`M2.9087 3.00008C2.64368 2.99655 2.3907 3.11422 2.21764 3.32152C2.04458 3.52883 1.96915 3.80455 2.01158 4.07472L5.81987 27.9484C5.91782 28.5515 6.42093 28.9949 7.01305 28.9999H25.283C25.7274 29.0058 26.109 28.6748 26.1801 28.2217L29.9884 4.07935C30.0309 3.80918 29.9554 3.53346 29.7824 3.32615C29.6093 3.11885 29.3563 3.00118 29.0913 3.00471L2.9087 3.00008ZM18.9448 20.2546H13.1135L11.5346 11.7362H20.3578L18.9448 20.2546Z` fill=`#2684FF` data-darkreader-inline-fill=`` style=`--darkreader-inline-fill: #004eb5;`></path>
    <path fill-rule=`evenodd` clip-rule=`evenodd` d=`M28.7778 11.7363H20.3582L18.9453 20.2547H13.114L6.22852 28.6944C6.44675 28.8892 6.725 28.9976 7.0135 29.0001H25.2879C25.7324 29.006 26.114 28.675 26.1851 28.2219L28.7778 11.7363Z` fill=`url(#paint0_linear_87_7932)`></path>
    <defs>
      <linearGradient id=`paint0_linear_87_7932` x1=`30.7245` y1=`14.1218` x2=`20.5764` y2=`28.0753` gradientUnits=`userSpaceOnUse`>
        <stop offset=`0.18` stop-color=`#0052CC` data-darkreader-inline-stopcolor=`` style=`--darkreader-inline-stopcolor: #0042a3;`></stop>
        <stop offset=`1` stop-color=`#2684FF` data-darkreader-inline-stopcolor=`` style=`--darkreader-inline-stopcolor: #004eb5;`></stop>
      </linearGradient>
    </defs>
  </g>
</svg>
        ".

(** [get_icon] (lines 101-118): returns the literal; it reads no file. *)
Definition get_icon : M string := ret fallback_svg.

(** [get_connection_data] (lines 120-127). *)
Definition get_connection_data : M (string * list string) :=
  ret ("BitBucket", ["username"; "token"; "target_directory"]).

Definition repos_url (user : string) : string :=
  "https://api.bitbucket.org/2.0/repositories/" ++ user.

(** The request of page [page]: [params = {'pagelen': 100, 'page': page}]
    and the header [Authorization: Bearer <token>]. *)
Definition page_request (user tok : string) (page : nat) : request :=
  {| rq_url := repos_url user; rq_auth := "Bearer " ++ tok;
     rq_pagelen := 100; rq_page := page |}.

(** The listing error of a non-200 status (lines 75-86). *)
Definition listing_error (user : string) (status : Z) : exn :=
  if Z.eqb status 404 then ValueError (M_user_not_found user)
  else if Z.eqb status 403 then PermissionError M_forbidden
  else ConnectionError (M_http_failed status).

(** One pass of the [while True] loop of [get_repos] per unit of fuel. *)
Fixpoint get_repos_loop (fuel : nat) (user tok : string) (page : nat)
    (repos : list json) : M (list json) :=
  match fuel with
  | O => nofuel
  | S fuel' =>
      log (M_fetch_page page user) ;;
      response <- requests_get (page_request user tok page) ;;
      if Z.eqb (status_code response) 200 then
        page_repos <- py_get (body response) "values" (JList []) ;;
        if negb (truthy page_repos) then
          log M_no_more ;; ret repos
        else
          items <- py_iter page_repos ;;
          get_repos_loop fuel' user tok (S page) (repos ++ items)
      else if Z.eqb (status_code response) 404 then
        log (M_user_not_found user) ;;
        raise (ValueError (M_user_not_found user))
      else if Z.eqb (status_code response) 403 then
        log M_forbidden ;;
        raise (PermissionError M_forbidden)
      else
        log (M_http_failed (status_code response)) ;;
        raise (ConnectionError (M_http_failed (status_code response)))
  end.

(** [get_repos(username, token)] (lines 55-88). *)
Definition get_repos (fuel : nat) (user tok : string) : M (list json) :=
  get_repos_loop fuel user tok 1 [].

(** [clone_repo(repo_clone_url, target_directory, repo_name)]
    (lines 90-98).  The [decode] runs inside the first handler, where the
    second handler no longer applies. *)
Definition clone_repo (url : json) (target : path) (name : json) : M unit :=
  try_except
    (log (M_cloning name url) ;;
     subprocess_run [JStr "git"; JStr "clone"; url] target ;;
     log (M_cloned name))
    (fun e =>
       match e with
       | CalledProcessError _ err =>
           Some (d <- decode err ;; log (M_clone_error name d))
       | _ => Some (log (M_clone_unexpected name (exn_text e)))
       end).

(** The body of [for repo in repos:] (lines 45-51). *)
Definition process_repo (target : path) (repo : json) : M unit :=
  links <- py_get repo "links" (JObj []) ;;
  clone <- py_get links "clone" (JList [JObj []]) ;;
  first <- py_index0 clone ;;
  clone_url <- py_get first "href" JNull ;;
  repo_name <- py_get repo "name" (JStr "Unnamed Repository") ;;
  if truthy clone_url then clone_repo clone_url target repo_name
  else log (M_no_clone_url repo_name).

Fixpoint for_each (target : path) (repos : list json) : M unit :=
  match repos with
  | [] => ret tt
  | r :: rest => process_repo target r ;; for_each target rest
  end.

(** The directory check of [fetch] (lines 24-35). *)
Definition ensure_target (target : path) : M unit :=
  ex <- path_exists target ;;
  if negb ex then
    try_except (makedirs target ;; log (M_created target))
      (fun e =>
         if is_oserror e
         then Some (log (M_mkdir_failed target (exn_text e)) ;; raise e)
         else None)
  else
    isd <- path_isdir target ;;
    if negb isd then
      log (M_not_dir target) ;; raise (NotADirectoryError (M_not_dir target))
    else ret tt.

(** [fetch()] (lines 17-53). *)
Definition fetch (fuel : nat) : M unit :=
  p <- get_params ;;
  let user := username p in
  let target := target_directory p in
  let tok := token p in
  log (M_start user target) ;;
  ensure_target target ;;
  repos <- get_repos fuel user tok ;;
  match repos with
  | [] => log (M_no_repos user)
  | _ =>
      log (M_found (length repos)) ;;
      for_each target repos ;;
      log M_all_done
  end.

(** ** Scenarios *)

Definition ok_page (l : list json) : response :=
  {| status_code := 200; body := JObj [("values", JList l)] |}.

Definition repo_rec (name url : string) : json :=
  JObj [("name", JStr name);
        ("links", JObj [("clone", JList [JObj [("href", JStr url)]])])].

Definition init_state (p : sync_params) (fs : path -> option node) : state :=
  {| st_fs := fs; st_params := p; st_trace := []; st_nhttp := 0;
     st_nrun := 0 |}.

Definition demo_params : sync_params :=
  {| username := "alice"; token := "t0k"; target_directory := ["home"; "repos"] |}.

Definition no_fs : path -> option node := fun _ => None.

Definition demo_world (pages : list response) (runs : list run_result) : world :=
  {| w_mkdir_fail := None;
     w_http := fun n => nth n pages (ok_page []);
     w_run := fun n => nth n runs (RunExit 0 []) |}.

(** The events a run appended to the trace of its initial state. *)
Definition new_events {A} (s : state) (r : outcome A * state) : list event :=
  skipn (length (st_trace s)) (st_trace (snd r)).

Definition clone_events (tr : list event) : list (list json) :=
  flat_map (fun e => match e with ERun argv _ => [argv] | _ => [] end) tr.

Definition http_events (tr : list event) : list request :=
  flat_map (fun e => match e with EHttpGet rq => [rq] | _ => [] end) tr.

(** Worlds and states of the witnesses. *)
Definition hundred (tag : Z) : list json := repeat (JNum tag) 100.

Definition three_pages_world : world :=
  demo_world [ok_page (hundred 1); ok_page (hundred 2); ok_page []] [].

Definition not_found_world : world :=
  demo_world [ok_page [repo_rec "a" "u1"];
              {| status_code := 404; body := JObj [] |}] [].

Definition file_fs : path -> option node :=
  fun p => if path_eqb p ["home"; "repos"] then Some (NFile "x") else None.

(** ** Predicates used by the proofs *)

(** [m] leaves the part [f] of the state as it found it. *)
Definition preserves {X} (f : state -> X) {A} (m : M A) : Prop :=
  forall w s, f (snd (m w s)) = f s.

(** [m] only appends to the trace, and only events satisfying [P]. *)
Definition emits (P : event -> bool) {A} (m : M A) : Prop :=
  forall w s, exists evs,
    st_trace (snd (m w s)) = st_trace s ++ evs /\ forallb P evs = true.

Definition is_http (e : event) : bool :=
  match e with EHttpGet _ => true | _ => false end.
Definition is_run (e : event) : bool :=
  match e with ERun _ _ => true | _ => false end.

Definition no_run (e : event) : bool := negb (is_run e).
Definition no_http (e : event) : bool := negb (is_http e).
Definition no_net (e : event) : bool := negb (is_http e) && negb (is_run e).

(** What one pass of the [while True] loop of [get_repos] makes of the
    response it receives (lines 68-86): the loop ends on a missing or
    falsy [values], goes on with the items of a truthy one, or raises. *)
Inductive page_step : Type :=
| PageEmpty
| PageItems (items : list json)
| PageError (e : exn).

Definition page_outcome (user : string) (r : response) : page_step :=
  if Z.eqb (status_code r) 200 then
    match body r with
    | JObj kvs =>
        let v := match assoc "values" kvs with Some v => v | None => JList [] end in
        if negb (truthy v) then PageEmpty
        else match v with
             | JList l => PageItems l
             | JStr s => PageItems (chars s)
             | JObj kvs' => PageItems (map (fun kv => JStr (fst kv)) kvs')
             | _ => PageError TypeError
             end
    | _ => PageError AttributeError
    end
  else PageError (listing_error user (status_code r)).

(** The state after the request of page [p]: its log line and request are
    in the trace and one more response has been consumed. *)
Definition advance (s : state) (u t : string) (p : nat) : state :=
  {| st_fs := st_fs s; st_params := st_params s;
     st_trace := st_trace s ++ [ELog (M_fetch_page p u); EHttpGet (page_request u t p)];
     st_nhttp := S (st_nhttp s); st_nrun := st_nrun s |}.

Definition with_log (s : state) (m : msg) : state :=
  {| st_fs := st_fs s; st_params := st_params s;
     st_trace := st_trace s ++ [ELog m];
     st_nhttp := st_nhttp s; st_nrun := st_nrun s |}.

Fixpoint pages_trace (u t : string) (p k : nat) : list event :=
  match k with
  | O => []
  | S k' => ELog (M_fetch_page p u) :: EHttpGet (page_request u t p)
              :: pages_trace u t (S p) k'
  end.

Definition advance_n (s : state) (u t : string) (p k : nat) : state :=
  {| st_fs := st_fs s; st_params := st_params s;
     st_trace := st_trace s ++ pages_trace u t p k;
     st_nhttp := st_nhttp s + k; st_nrun := st_nrun s |}.

(** A page of the listing: status 200 and a [values] array [l]. *)
Definition is_page (r : response) (l : list json) : Prop :=
  status_code r = 200%Z /\
  exists kvs, body r = JObj kvs /\ assoc "values" kvs = Some (JList l).

(** The directory check of [fetch] lets the run go on: the target is a
    directory, or it is absent and [os.makedirs] can create it. *)
Definition dir_ready (w : world) (s : state) (t : path) : Prop :=
  st_fs s t = Some NDir \/
  (st_fs s t = None /\ w_mkdir_fail w = None /\ t <> [] /\
   existsb (fun q => is_file (st_fs s q)) (proper_prefixes t) = false).

(** What [fetch] does once the repositories are listed (lines 38-53). *)
Definition clone_phase (target : path) (user : string) (repos : list json) : M unit :=
  match repos with
  | [] => log (M_no_repos user)
  | _ =>
      log (M_found (length repos)) ;;
      for_each target repos ;;
      log M_all_done
  end.

(** A world that answers every request with status 403. *)
Definition forbidden_world : world :=
  {| w_mkdir_fail := None;
     w_http := fun _ => {| status_code := 403; body := JObj [] |};
     w_run := fun _ => RunExit 0 [] |}.

(** [repo.get('name', 'Unnamed Repository')] of a dict. *)
Definition repo_name_of (kvs : list (string * json)) : json :=
  match assoc "name" kvs with Some v => v | None => JStr "Unnamed Repository" end.

(** A record whose ['links'] binds ['clone'] to an empty list. *)
Definition empty_clone_rec : json :=
  JObj [("name", JStr "empty"); ("links", JObj [("clone", JList [])])].

(** A record without any ['links']. *)
Definition no_links_rec : json := JObj [("name", JStr "b")].

(** A byte that starts no UTF-8 sequence. *)
Definition bad_stderr : list byte := [Byte.xff].

Definition icon_fs : path -> option node :=
  fun p => if path_eqb p ["icon.svg"] then Some (NFile "<svg/>") else None.

(** ** Reading the clone URL of a record

    What lines 46-47 make of a record [repo], as a value: [None] when
    [repo.get('links', {}).get('clone', [{}])[0].get('href')] raises,
    [Some None] when the URL it yields is falsy (the record is skipped),
    [Some (Some u)] when it yields the URL [u] that is cloned. *)
Definition clone_href (repo : json) : option (option json) :=
  match repo with
  | JObj kvs =>
      match match assoc "links" kvs with Some v => v | None => JObj [] end with
      | JObj lk =>
          match match assoc "clone" lk with Some v => v | None => JList [JObj []] end with
          | JList (JObj f :: _) =>
              match assoc "href" f with
              | Some v => Some (if truthy v then Some v else None)
              | None => Some None
              end
          | _ => None
          end
      | _ => None
      end
  | _ => None
  end.

(** [repo.get('name', 'Unnamed Repository')] of a record that is a dict. *)
Definition record_name (repo : json) : json :=
  match repo with
  | JObj kvs => repo_name_of kvs
  | _ => JStr "Unnamed Repository"
  end.

(** The command line of [clone_repo] (line 93). *)
Definition clone_args (url : json) : list json := [JStr "git"; JStr "clone"; url].

(** The [git clone] commands the loop of lines 44-51 runs on [repos] when
    no record raises. *)
Definition clone_calls (repos : list json) : list (list json) :=
  flat_map (fun r => match clone_href r with
                     | Some (Some u) => [clone_args u]
                     | _ => []
                     end) repos.

(** Every failing [git] of the world writes a standard error that
    [bytes.decode()] accepts. *)
Definition runs_decodable (w : world) : Prop :=
  forall n code err, w_run w n = RunExit code err -> Z.eqb code 0 = false ->
  utf8_valid err = true.

(** Scenarios of the further properties. *)
Definition ascii_err : list byte := [Byte.x66; Byte.x61; Byte.x74; Byte.x61; Byte.x6c].

Definition two_href_rec : json :=
  JObj [("name", JStr "d");
        ("links", JObj [("clone", JList [JObj [("name", JStr "ssh")];
                                          JObj [("href", JStr "u4")]])])].

Definition null_values_world : world :=
  demo_world [{| status_code := 200; body := JObj [("values", JNull)] |}] [].

Definition list_body_world : world :=
  demo_world [ok_page [repo_rec "a" "u1"]; {| status_code := 200; body := JList [] |}] [].

Definition two_pages_world : world :=
  demo_world [ok_page [repo_rec "a" "u1"; no_links_rec];
              ok_page [repo_rec "c" "u3"]; ok_page []]
             [RunExit 0 []; RunExit 128 ascii_err].

(** * Proofs *)

(** ** Frame lemmas: a computation that leaves a part of the state alone *)

Section Frame.
Context {X : Type} (f : state -> X).

Lemma preserves_ret {A} (a : A) : preserves f (ret a).
Proof. intros w s; reflexivity. Qed.

Lemma preserves_raise {A} e : preserves f (A := A) (raise e).
Proof. intros w s; reflexivity. Qed.

Lemma preserves_nofuel {A} : preserves f (A := A) nofuel.
Proof. intros w s; reflexivity. Qed.

Lemma preserves_bind {A B} (m : M A) (k : A -> M B) :
  preserves f m -> (forall a, preserves f (k a)) -> preserves f (bind m k).
Proof.
  intros Hm Hk w s. unfold bind. specialize (Hm w s).
  destruct (m w s) as [[a|e|] s'] eqn:E; simpl in *; try rewrite Hk; congruence.
Qed.

Lemma preserves_try {A} (m : M A) h :
  preserves f m -> (forall e k, h e = Some k -> preserves f k) ->
  preserves f (try_except m h).
Proof.
  intros Hm Hh w s. unfold try_except. specialize (Hm w s).
  destruct (m w s) as [[a|e|] s'] eqn:E; simpl in *; auto.
  destruct (h e) as [k|] eqn:Ek; simpl; auto.
  rewrite (Hh e k Ek); auto.
Qed.

End Frame.

Create HintDb frame.
#[export] Hint Resolve preserves_ret preserves_raise preserves_nofuel : frame.

(** Splits a [preserves] goal along the structure of the program. *)
Ltac frame :=
  repeat match goal with
  | |- preserves _ (bind _ _) => apply preserves_bind; [|intro]
  | |- preserves _ (try_except _ _) =>
      apply preserves_try; [|let e := fresh "e" in let k := fresh "k" in
                             let E := fresh "E" in
                             intros e k E; destruct e; try destruct (is_oserror _);
                             inversion E; subst; clear E]
  | |- preserves _ (if ?b then _ else _) => destruct b
  | |- preserves _ (match ?x with _ => _ end) => destruct x
  | |- preserves _ _ => solve [eauto with frame]
  end.

(** *** The filesystem and [self.params] *)

Lemma emit_params e : preserves st_params (emit e).
Proof. intros w s; reflexivity. Qed.
Lemma emit_fs e : preserves st_fs (emit e).
Proof. intros w s; reflexivity. Qed.
Lemma log_params m : preserves st_params (log m).
Proof. apply emit_params. Qed.
Lemma log_fs m : preserves st_fs (log m).
Proof. apply emit_fs. Qed.
Lemma get_params_params : preserves st_params get_params.
Proof. intros w s; reflexivity. Qed.
Lemma get_params_fs : preserves st_fs get_params.
Proof. intros w s; reflexivity. Qed.
Lemma path_exists_params p : preserves st_params (path_exists p).
Proof. intros w s; reflexivity. Qed.
Lemma path_exists_fs p : preserves st_fs (path_exists p).
Proof. intros w s; reflexivity. Qed.
Lemma path_isdir_params p : preserves st_params (path_isdir p).
Proof. intros w s; reflexivity. Qed.
Lemma path_isdir_fs p : preserves st_fs (path_isdir p).
Proof. intros w s; reflexivity. Qed.

Lemma py_get_pres {X} (f : state -> X) d k v : preserves f (py_get d k v).
Proof. unfold py_get; frame. Qed.
Lemma py_index0_pres {X} (f : state -> X) v : preserves f (py_index0 v).
Proof. unfold py_index0; frame. Qed.
Lemma py_iter_pres {X} (f : state -> X) v : preserves f (py_iter v).
Proof. unfold py_iter; frame. Qed.
Lemma decode_pres {X} (f : state -> X) l : preserves f (decode l).
Proof. unfold decode; frame. Qed.

Lemma makedirs_params p : preserves st_params (makedirs p).
Proof.
  unfold makedirs. apply preserves_bind; [apply emit_params|].
  intros _ w s. destruct (w_mkdir_fail w); [reflexivity|].
  destruct p; [reflexivity|].
  destruct (existsb _ _); reflexivity.
Qed.

Lemma requests_get_params rq : preserves st_params (requests_get rq).
Proof.
  unfold requests_get. apply preserves_bind; [apply emit_params|].
  intros _ w s; reflexivity.
Qed.
Lemma requests_get_fs rq : preserves st_fs (requests_get rq).
Proof.
  unfold requests_get. apply preserves_bind; [apply emit_fs|].
  intros _ w s; reflexivity.
Qed.

Lemma subprocess_run_params a c : preserves st_params (subprocess_run a c).
Proof.
  unfold subprocess_run. apply preserves_bind; [apply emit_params|].
  intros _ w s. destruct (w_run w _) as [code err|]; [destruct (Z.eqb code 0)|];
    reflexivity.
Qed.
Lemma subprocess_run_fs a c : preserves st_fs (subprocess_run a c).
Proof.
  unfold subprocess_run. apply preserves_bind; [apply emit_fs|].
  intros _ w s. destruct (w_run w _) as [code err|]; [destruct (Z.eqb code 0)|];
    reflexivity.
Qed.

#[export] Hint Resolve emit_params emit_fs log_params log_fs get_params_params
  get_params_fs path_exists_params path_exists_fs path_isdir_params
  path_isdir_fs py_get_pres py_index0_pres py_iter_pres decode_pres
  makedirs_params requests_get_params requests_get_fs subprocess_run_params
  subprocess_run_fs : frame.

Lemma get_repos_loop_pres_params fuel u t p acc :
  preserves st_params (get_repos_loop fuel u t p acc).
Proof.
  revert p acc; induction fuel as [|fuel IH]; intros p acc; simpl; frame.
Qed.
Lemma get_repos_loop_pres_fs fuel u t p acc :
  preserves st_fs (get_repos_loop fuel u t p acc).
Proof.
  revert p acc; induction fuel as [|fuel IH]; intros p acc; simpl; frame.
Qed.
#[export] Hint Resolve get_repos_loop_pres_params get_repos_loop_pres_fs : frame.

Lemma clone_repo_params u c n : preserves st_params (clone_repo u c n).
Proof. unfold clone_repo; frame. Qed.
Lemma clone_repo_fs u c n : preserves st_fs (clone_repo u c n).
Proof. unfold clone_repo; frame. Qed.
#[export] Hint Resolve clone_repo_params clone_repo_fs : frame.

Lemma process_repo_params c r : preserves st_params (process_repo c r).
Proof. unfold process_repo; frame. Qed.
Lemma process_repo_fs c r : preserves st_fs (process_repo c r).
Proof. unfold process_repo; frame. Qed.
#[export] Hint Resolve process_repo_params process_repo_fs : frame.

Lemma for_each_params c l : preserves st_params (for_each c l).
Proof. induction l; simpl; frame. Qed.
Lemma for_each_fs c l : preserves st_fs (for_each c l).
Proof. induction l; simpl; frame. Qed.
#[export] Hint Resolve for_each_params for_each_fs : frame.

Lemma ensure_target_params c : preserves st_params (ensure_target c).
Proof. unfold ensure_target; frame. Qed.
#[export] Hint Resolve ensure_target_params : frame.

Lemma fetch_params fuel : preserves st_params (fetch fuel).
Proof. unfold fetch, get_repos; frame. Qed.

(** *** Counters of external calls *)

Lemma emit_nhttp e : preserves st_nhttp (emit e).
Proof. intros w s; reflexivity. Qed.
Lemma emit_nrun e : preserves st_nrun (emit e).
Proof. intros w s; reflexivity. Qed.
Lemma log_nhttp m : preserves st_nhttp (log m).
Proof. apply emit_nhttp. Qed.
Lemma log_nrun m : preserves st_nrun (log m).
Proof. apply emit_nrun. Qed.
Lemma path_exists_cnt {X} (f : state -> X) p : preserves f (path_exists p).
Proof. intros w s; reflexivity. Qed.
Lemma path_isdir_cnt {X} (f : state -> X) p : preserves f (path_isdir p).
Proof. intros w s; reflexivity. Qed.
Lemma makedirs_nhttp p : preserves st_nhttp (makedirs p).
Proof.
  unfold makedirs. apply preserves_bind; [apply emit_nhttp|].
  intros _ w s. destruct (w_mkdir_fail w); [reflexivity|].
  destruct p; [reflexivity|]. destruct (existsb _ _); reflexivity.
Qed.
Lemma makedirs_nrun p : preserves st_nrun (makedirs p).
Proof.
  unfold makedirs. apply preserves_bind; [apply emit_nrun|].
  intros _ w s. destruct (w_mkdir_fail w); [reflexivity|].
  destruct p; [reflexivity|]. destruct (existsb _ _); reflexivity.
Qed.
#[export] Hint Resolve emit_nhttp emit_nrun log_nhttp log_nrun path_exists_cnt
  path_isdir_cnt makedirs_nhttp makedirs_nrun : frame.

Lemma ensure_target_nhttp c : preserves st_nhttp (ensure_target c).
Proof. unfold ensure_target; frame. Qed.
Lemma ensure_target_nrun c : preserves st_nrun (ensure_target c).
Proof. unfold ensure_target; frame. Qed.

(** ** Trace lemmas: a computation appends only events of a given kind *)

Section Emits.
Variable P : event -> bool.

Lemma emits_ret {A} (a : A) : emits P (ret a).
Proof. intros w s; exists []; rewrite app_nil_r; auto. Qed.
Lemma emits_raise {A} e : emits P (A := A) (raise e).
Proof. intros w s; exists []; rewrite app_nil_r; auto. Qed.
Lemma emits_nofuel {A} : emits P (A := A) nofuel.
Proof. intros w s; exists []; rewrite app_nil_r; auto. Qed.
Lemma emits_emit e : P e = true -> emits P (emit e).
Proof. intros H w s; exists [e]; simpl; rewrite H; auto. Qed.
Lemma emits_state {A} (m : M A) :
  (forall w s, st_trace (snd (m w s)) = st_trace s) -> emits P m.
Proof. intros H w s; exists []; rewrite app_nil_r; auto. Qed.

Lemma emits_bind {A B} (m : M A) (k : A -> M B) :
  emits P m -> (forall a, emits P (k a)) -> emits P (bind m k).
Proof.
  intros Hm Hk w s. unfold bind. destruct (Hm w s) as [e1 [E1 P1]].
  destruct (m w s) as [[a|e|] s'] eqn:E; simpl in *; eauto.
  destruct (Hk a w s') as [e2 [E2 P2]]. exists (e1 ++ e2).
  rewrite E2, E1, app_assoc, forallb_app, P1, P2; auto.
Qed.

Lemma emits_try {A} (m : M A) h :
  emits P m -> (forall e k, h e = Some k -> emits P k) -> emits P (try_except m h).
Proof.
  intros Hm Hh w s. unfold try_except. destruct (Hm w s) as [e1 [E1 P1]].
  destruct (m w s) as [[a|e|] s'] eqn:E; simpl in *; eauto.
  destruct (h e) as [k|] eqn:Ek; simpl; eauto.
  destruct (Hh e k Ek w s') as [e2 [E2 P2]]. exists (e1 ++ e2).
  rewrite E2, E1, app_assoc, forallb_app, P1, P2; auto.
Qed.

End Emits.

Create HintDb trace.
#[export] Hint Resolve emits_ret emits_raise emits_nofuel : trace.
#[export] Hint Extern 1 (emits _ (emit _)) =>
  apply emits_emit; reflexivity : trace.
#[export] Hint Extern 1 (emits _ (log _)) =>
  apply emits_emit; reflexivity : trace.

Ltac traces :=
  repeat match goal with
  | |- emits _ (bind _ _) => apply emits_bind; [|intro]
  | |- emits _ (try_except _ _) =>
      apply emits_try; [|let e := fresh "e" in let k := fresh "k" in
                         let E := fresh "E" in
                         intros e k E; destruct e; try destruct (is_oserror _);
                         inversion E; subst; clear E]
  | |- emits _ (if ?b then _ else _) => destruct b
  | |- emits _ (match ?x with _ => _ end) => destruct x
  | |- emits _ _ => solve [eauto with trace]
  end.

Lemma py_get_emits P d k v : emits P (py_get d k v).
Proof. unfold py_get; traces. Qed.
Lemma py_index0_emits P v : emits P (py_index0 v).
Proof. unfold py_index0; traces. Qed.
Lemma py_iter_emits P v : emits P (py_iter v).
Proof. unfold py_iter; traces. Qed.
Lemma decode_emits P l : emits P (decode l).
Proof. unfold decode; traces. Qed.
Lemma get_params_emits P : emits P get_params.
Proof. apply emits_state; reflexivity. Qed.
Lemma path_exists_emits P p : emits P (path_exists p).
Proof. apply emits_state; reflexivity. Qed.
Lemma path_isdir_emits P p : emits P (path_isdir p).
Proof. apply emits_state; reflexivity. Qed.
#[export] Hint Resolve py_get_emits py_index0_emits py_iter_emits decode_emits
  get_params_emits path_exists_emits path_isdir_emits : trace.

Lemma makedirs_emits P p : P (EMakedirs p) = true -> emits P (makedirs p).
Proof.
  intros HP. unfold makedirs. apply emits_bind; [apply emits_emit; auto|].
  intros _. apply emits_state. intros w s.
  destruct (w_mkdir_fail w); [reflexivity|].
  destruct p; [reflexivity|]. destruct (existsb _ _); reflexivity.
Qed.

Lemma requests_get_emits P rq : P (EHttpGet rq) = true -> emits P (requests_get rq).
Proof.
  intros HP. unfold requests_get. apply emits_bind; [apply emits_emit; auto|].
  intros _. apply emits_state; reflexivity.
Qed.

Lemma subprocess_run_emits P a c : P (ERun a c) = true -> emits P (subprocess_run a c).
Proof.
  intros HP. unfold subprocess_run. apply emits_bind; [apply emits_emit; auto|].
  intros _. apply emits_state. intros w s.
  destruct (w_run w _) as [code err|]; [destruct (Z.eqb code 0)|]; reflexivity.
Qed.
#[export] Hint Extern 1 (emits _ (makedirs _)) =>
  apply makedirs_emits; reflexivity : trace.
#[export] Hint Extern 1 (emits _ (requests_get _)) =>
  apply requests_get_emits; reflexivity : trace.
#[export] Hint Extern 1 (emits _ (subprocess_run _ _)) =>
  apply subprocess_run_emits; reflexivity : trace.

Lemma get_repos_loop_no_run fuel u t p acc :
  emits no_run (get_repos_loop fuel u t p acc).
Proof. revert p acc; induction fuel; intros p acc; simpl; traces. Qed.

Lemma ensure_target_no_net c : emits no_net (ensure_target c).
Proof. unfold ensure_target; traces. Qed.

Lemma clone_repo_no_http u c n : emits no_http (clone_repo u c n).
Proof. unfold clone_repo; traces. Qed.
#[export] Hint Resolve clone_repo_no_http : trace.

Lemma process_repo_no_http c r : emits no_http (process_repo c r).
Proof. unfold process_repo; traces. Qed.
#[export] Hint Resolve process_repo_no_http : trace.

Lemma for_each_no_http c l : emits no_http (for_each c l).
Proof. induction l; simpl; traces. Qed.

(** ** One page of the listing loop *)

Lemma get_repos_loop_items fuel u t p acc w s l :
  page_outcome u (w_http w (st_nhttp s)) = PageItems l ->
  get_repos_loop (S fuel) u t p acc w s =
  get_repos_loop fuel u t (S p) (acc ++ l) w (advance s u t p).
Proof.
  intros H. unfold page_outcome in H. simpl.
  unfold bind, log, emit, requests_get, bind, emit. simpl.
  rewrite <- app_assoc. simpl.
  destruct (w_http w (st_nhttp s)) as [st b]; simpl in *.
  destruct (Z.eqb st 200); [|discriminate].
  destruct b; try discriminate. simpl.
  destruct (assoc "values" kvs) as [v|]; [|discriminate]. simpl.
  destruct (truthy v); simpl; [|discriminate].
  destruct v; inversion H; subst; reflexivity.
Qed.

Lemma get_repos_loop_empty fuel u t p acc w s :
  page_outcome u (w_http w (st_nhttp s)) = PageEmpty ->
  get_repos_loop (S fuel) u t p acc w s =
  (Ret acc, with_log (advance s u t p) M_no_more).
Proof.
  intros H. unfold page_outcome in H. simpl.
  unfold bind, log, emit, requests_get, bind, emit. simpl.
  rewrite <- app_assoc. simpl.
  destruct (w_http w (st_nhttp s)) as [st b]; simpl in *.
  destruct (Z.eqb st 200); [|discriminate].
  destruct b; try discriminate. simpl.
  destruct (assoc "values" kvs) as [v|]; simpl.
  - destruct (truthy v); simpl; [destruct v; discriminate|reflexivity].
  - reflexivity.
Qed.

Lemma get_repos_loop_error fuel u t p acc w s e :
  page_outcome u (w_http w (st_nhttp s)) = PageError e ->
  fst (get_repos_loop (S fuel) u t p acc w s) = Raise e.
Proof.
  intros H. unfold page_outcome in H. simpl.
  unfold bind, log, emit, requests_get, bind, emit. simpl.
  destruct (w_http w (st_nhttp s)) as [st b]; simpl in *.
  destruct (Z.eqb st 200) eqn:E200.
  - destruct b; try (inversion H; reflexivity). simpl.
    destruct (assoc "values" kvs) as [v|]; simpl; [|discriminate].
    destruct (truthy v); simpl; [|discriminate].
    destruct v; inversion H; reflexivity.
  - inversion H; subst. unfold listing_error.
    destruct (Z.eqb st 404); [reflexivity|].
    destruct (Z.eqb st 403); reflexivity.
Qed.

(** ** Several pages *)

Lemma advance_n_0 s u t p : advance_n s u t p 0 = s.
Proof. destruct s; unfold advance_n; simpl; rewrite app_nil_r, Nat.add_0_r; reflexivity. Qed.

Lemma advance_n_S s u t p k :
  advance_n (advance s u t p) u t (S p) k = advance_n s u t p (S k).
Proof.
  destruct s; unfold advance_n, advance; simpl.
  rewrite <- app_assoc. f_equal. lia.
Qed.

Lemma get_repos_loop_pages ls fuel u t p acc w s :
  (forall i l, nth_error ls i = Some l ->
     page_outcome u (w_http w (st_nhttp s + i)) = PageItems l) ->
  get_repos_loop (length ls + fuel) u t p acc w s =
  get_repos_loop fuel u t (p + length ls) (acc ++ concat ls) w
    (advance_n s u t p (length ls)).
Proof.
  revert p acc s. induction ls as [|l ls IH]; intros p acc s H; cbn [length concat].
  - rewrite Nat.add_0_r, app_nil_r, advance_n_0. reflexivity.
  - rewrite Nat.add_succ_l, (get_repos_loop_items _ _ _ _ _ _ _ l).
    2:{ rewrite <- (Nat.add_0_r (st_nhttp s)). apply (H 0); reflexivity. }
    rewrite IH.
    + rewrite advance_n_S, <- app_assoc.
      replace (S p + length ls) with (p + S (length ls)) by lia. reflexivity.
    + intros i l' Hi. simpl. rewrite <- Nat.add_succ_r. apply (H (S i)); exact Hi.
Qed.

Lemma page_outcome_page u r l :
  is_page r l -> page_outcome u r = match l with [] => PageEmpty | _ => PageItems l end.
Proof.
  intros [Hs [kvs [Hb Hv]]]. unfold page_outcome. rewrite Hs, Hb, Hv. simpl.
  destruct l; reflexivity.
Qed.

Lemma skipn_new_events (tr evs : list event) :
  skipn (length tr) (tr ++ evs) = evs.
Proof. induction tr; simpl; auto. Qed.


(** ** [fetch] in phases *)

Lemma ensure_target_ready w s t :
  dir_ready w s t -> fst (ensure_target t w s) = Ret tt.
Proof.
  intros [H | (H & Hm & Hne & Hf)]; unfold ensure_target, bind, path_exists, path_isdir;
    simpl; rewrite H; simpl; [rewrite H; reflexivity|].
  unfold try_except, makedirs, bind, emit. simpl. rewrite Hm.
  destruct t as [|c t]; [congruence|]. simpl in Hf |- *. rewrite Hf. reflexivity.
Qed.

Lemma fetch_unfold fuel w s :
  fetch fuel w s =
  (ensure_target (target_directory (st_params s)) ;;
   repos <- get_repos fuel (username (st_params s)) (token (st_params s)) ;;
   clone_phase (target_directory (st_params s)) (username (st_params s)) repos)
    w (with_log s (M_start (username (st_params s)) (target_directory (st_params s)))).
Proof. reflexivity. Qed.

Lemma clone_events_none tr : forallb no_run tr = true -> clone_events tr = [].
Proof.
  induction tr as [|e tr IH]; simpl; auto.
  intros H. apply andb_prop in H as [H1 H2]. destruct e; simpl in *; auto; discriminate.
Qed.

Lemma http_events_none tr : forallb no_http tr = true -> http_events tr = [].
Proof.
  induction tr as [|e tr IH]; simpl; auto.
  intros H. apply andb_prop in H as [H1 H2]. destruct e; simpl in *; auto; discriminate.
Qed.

Lemma no_net_no_run tr : forallb no_net tr = true -> forallb no_run tr = true.
Proof.
  induction tr as [|e tr IH]; simpl; auto.
  intros H. apply andb_prop in H as [H1 H2]. unfold no_net, no_run in *.
  apply andb_prop in H1 as [_ H1]. rewrite H1, IH; auto.
Qed.

Lemma no_net_no_http tr : forallb no_net tr = true -> forallb no_http tr = true.
Proof.
  induction tr as [|e tr IH]; simpl; auto.
  intros H. apply andb_prop in H as [H1 H2]. unfold no_net, no_http in *.
  apply andb_prop in H1 as [H1 _]. rewrite H1, IH; auto.
Qed.

(** The listing raises [e] at the first response that is not a page. *)
Lemma get_repos_error_after ls fuel u t w s e :
  (forall i l, nth_error ls i = Some l ->
     page_outcome u (w_http w (st_nhttp s + i)) = PageItems l) ->
  page_outcome u (w_http w (st_nhttp s + length ls)) = PageError e ->
  length ls < fuel ->
  fst (get_repos fuel u t w s) = Raise e.
Proof.
  intros Hp He Hf. unfold get_repos.
  replace fuel with (length ls + S (fuel - S (length ls))) by lia.
  rewrite (get_repos_loop_pages ls _ _ _ _ _ _ _ Hp).
  apply get_repos_loop_error. exact He.
Qed.

Lemma pages_outcome u w n ls :
  (forall i l, nth_error ls i = Some l -> l <> [] /\ is_page (w_http w (n + i)) l) ->
  forall i l, nth_error ls i = Some l -> page_outcome u (w_http w (n + i)) = PageItems l.
Proof.
  intros H i l Hi. destruct (H i l Hi) as [Hne Hp].
  rewrite (page_outcome_page u _ _ Hp). destruct l; [congruence|reflexivity].
Qed.

(** ** Creating the target directory *)

Lemma path_eqb_refl p : path_eqb p p = true.
Proof. unfold path_eqb. destruct (list_eq_dec string_dec p p); congruence. Qed.

Lemma existsb_in_eqb q l : In q l -> existsb (path_eqb q) l = true.
Proof.
  intros H. apply existsb_exists. exists q. split; auto. apply path_eqb_refl.
Qed.

Lemma makedirs_fs_only p w s s' :
  st_fs s = st_fs s' -> fst (makedirs p w s) = fst (makedirs p w s').
Proof.
  intros E. unfold makedirs, bind, emit. simpl. rewrite E.
  destruct (w_mkdir_fail w); [reflexivity|]. destruct p; [reflexivity|].
  destruct (existsb _ _); reflexivity.
Qed.

Lemma ensure_target_absent T w s :
  st_fs s T = None ->
  (forall e, fst (makedirs T w s) = Raise e ->
     ensure_target T w s =
       (Raise e, with_log {| st_fs := st_fs s; st_params := st_params s;
                             st_trace := st_trace s ++ [EMakedirs T];
                             st_nhttp := st_nhttp s; st_nrun := st_nrun s |}
                          (M_mkdir_failed T (exn_text e)))) /\
  (fst (makedirs T w s) = Ret tt ->
     exists s1, ensure_target T w s = (Ret tt, s1) /\
       st_trace s1 = st_trace s ++ [EMakedirs T; ELog (M_created T)] /\
       (forall q, In q (prefixes T) -> st_fs s1 q = Some NDir) /\
       st_nhttp s1 = st_nhttp s).
Proof.
  intros HT. unfold ensure_target, bind, path_exists. simpl. rewrite HT. simpl.
  unfold try_except, bind, makedirs, bind, emit. simpl.
  destruct (w_mkdir_fail w) as [m|].
  { split; [|discriminate]. intros e He. simpl in He. inversion He; subst.
    reflexivity. }
  destruct (match T with [] => true | _ :: _ => false end).
  { split; [|discriminate]. intros e He. simpl in He. inversion He; subst.
    reflexivity. }
  destruct (existsb (fun q => is_file (st_fs s q)) (proper_prefixes T)) eqn:Ef.
  { split; [|discriminate]. intros e He. simpl in He. inversion He; subst.
    reflexivity. }
  split; [discriminate|]. intros _.
  eexists. split; [reflexivity|]. simpl.
  split; [rewrite <- app_assoc; reflexivity|].
  split; [|reflexivity].
  intros q Hq. rewrite (existsb_in_eqb q _ Hq).
  unfold prefixes in Hq. apply in_app_iff in Hq as [Hq|[Hq|[]]].
  - destruct (st_fs s q) as [[|x]|] eqn:Eq; auto.
    assert (existsb (fun q => is_file (st_fs s q)) (proper_prefixes T) = true) as C.
    { apply existsb_exists. exists q. rewrite Eq. auto. }
    congruence.
  - subst q. rewrite HT. reflexivity.
Qed.

Lemma clone_phase_fs T u repos : preserves st_fs (clone_phase T u repos).
Proof. unfold clone_phase; frame. Qed.

Lemma clone_phase_no_http T u repos : emits no_http (clone_phase T u repos).
Proof. unfold clone_phase; traces; apply for_each_no_http. Qed.

(** ** The pages a listing requests *)

Lemma get_repos_loop_error_trace fuel u t p acc w s e :
  page_outcome u (w_http w (st_nhttp s)) = PageError e ->
  exists evs, st_trace (snd (get_repos_loop (S fuel) u t p acc w s)) =
              st_trace (advance s u t p) ++ evs /\ forallb no_http evs = true.
Proof.
  intros H. unfold page_outcome in H. simpl.
  unfold bind, log, emit, requests_get, bind, emit. simpl.
  rewrite <- app_assoc. simpl.
  destruct (w_http w (st_nhttp s)) as [st b]; simpl in *.
  destruct (Z.eqb st 200) eqn:E200.
  - destruct b; try (exists []; rewrite app_nil_r; split; reflexivity). simpl.
    destruct (assoc "values" kvs) as [v|]; simpl; [|discriminate].
    destruct (truthy v); simpl; [|discriminate].
    destruct v; try discriminate; exists []; rewrite app_nil_r; split; reflexivity.
  - destruct (Z.eqb st 404); [|destruct (Z.eqb st 403)];
      eexists; simpl; rewrite <- !app_assoc; split; reflexivity.
Qed.

Lemma http_events_app a b : http_events (a ++ b) = http_events a ++ http_events b.
Proof. apply flat_map_app. Qed.

Lemma get_repos_loop_pages_from fuel u t p acc w s :
  exists evs k, st_trace (snd (get_repos_loop fuel u t p acc w s)) = st_trace s ++ evs /\
    http_events evs = map (page_request u t) (seq p k).
Proof.
  revert p acc s. induction fuel as [|fuel IH]; intros p acc s.
  { exists [], 0. simpl. rewrite app_nil_r. auto. }
  destruct (page_outcome u (w_http w (st_nhttp s))) as [|l|e] eqn:E.
  - rewrite (get_repos_loop_empty _ _ _ _ _ _ _ E). exists
      [ELog (M_fetch_page p u); EHttpGet (page_request u t p); ELog M_no_more], 1.
    simpl. rewrite <- !app_assoc. auto.
  - rewrite (get_repos_loop_items _ _ _ _ _ _ _ _ E).
    destruct (IH (S p) (acc ++ l) (advance s u t p)) as (evs & k & Tr & Hh).
    exists ([ELog (M_fetch_page p u); EHttpGet (page_request u t p)] ++ evs), (S k).
    rewrite Tr. simpl. rewrite <- app_assoc. split; [reflexivity|].
    rewrite Hh. reflexivity.
  - destruct (get_repos_loop_error_trace fuel u t p acc w s e E) as (evs & Tr & F).
    exists ([ELog (M_fetch_page p u); EHttpGet (page_request u t p)] ++ evs), 1.
    rewrite Tr. simpl. rewrite <- app_assoc. split; [reflexivity|].
    rewrite (http_events_none _ F). reflexivity.
Qed.

(** ** Termination of the listing loop *)

Lemma get_repos_loop_forever u t w fuel : forall p acc s,
  (forall j, st_nhttp s <= j -> exists l, page_outcome u (w_http w j) = PageItems l) ->
  fst (get_repos_loop fuel u t p acc w s) = NoFuel.
Proof.
  induction fuel as [|fuel IH]; intros p acc s H; [reflexivity|].
  destruct (H (st_nhttp s) (le_n _)) as [l E].
  rewrite (get_repos_loop_items _ _ _ _ _ _ _ _ E). apply IH.
  intros j Hj. apply H. simpl in Hj. lia.
Qed.

Lemma first_non_page u w i0 : forall n,
  (forall l, page_outcome u (w_http w (n + i0)) <> PageItems l) ->
  exists ls, length ls <= i0 /\
    (forall i l, nth_error ls i = Some l -> page_outcome u (w_http w (n + i)) = PageItems l) /\
    (forall l, page_outcome u (w_http w (n + length ls)) <> PageItems l).
Proof.
  induction i0 as [|j IH]; intros n H.
  - exists []. simpl. split; [lia|]. split; [intros [|i] l Hl; discriminate|].
    exact H.
  - destruct (page_outcome u (w_http w (n + 0))) as [|l0|e] eqn:E0.
    + exists []. simpl. split; [lia|]. split; [intros [|i] l Hl; discriminate|].
      rewrite E0. discriminate.
    + destruct (IH (S n)) as (ls & Hlen & Hp & Hs).
      { replace (S n + j) with (n + S j) by lia. exact H. }
      exists (l0 :: ls). simpl. split; [lia|]. split.
      * intros [|i] l Hl; simpl in Hl.
        -- inversion Hl; subst. exact E0.
        -- replace (n + S i) with (S n + i) by lia. apply Hp. exact Hl.
      * replace (n + S (length ls)) with (S n + length ls) by lia. exact Hs.
    + exists []. simpl. split; [lia|]. split; [intros [|i] l Hl; discriminate|].
      rewrite E0. discriminate.
Qed.

(** ** The loop over the repositories *)

Lemma for_each_app T pre rest w s :
  fst (for_each T pre w s) = Ret tt ->
  for_each T (pre ++ rest) w s = for_each T rest w (snd (for_each T pre w s)).
Proof.
  revert s. induction pre as [|r pre IH]; intros s H; [reflexivity|].
  simpl in *. unfold bind in *.
  destruct (process_repo T r w s) as [[[]|e|] s'] eqn:E; try discriminate.
  apply IH. exact H.
Qed.

(** ** Clone failures *)

(** [clone_repo] returns normally whenever the standard error of a failed
    [git] is valid UTF-8: exits and start failures are caught and logged. *)
Lemma clone_repo_catches url T name w s :
  (forall code err, w_run w (st_nrun s) = RunExit code err -> utf8_valid err = true) ->
  fst (clone_repo url T name w s) = Ret tt.
Proof.
  intros H. unfold clone_repo, try_except, bind, log, emit, subprocess_run, bind, emit.
  simpl. destruct (w_run w (st_nrun s)) as [code err|m] eqn:E; simpl.
  - destruct (Z.eqb code 0); simpl; [reflexivity|].
    unfold decode. rewrite (H code err eq_refl). reflexivity.
  - reflexivity.
Qed.

(** ** Claims *)

(** C3: when the successive responses are pages of 100, 100 and 0
    repositories, [get_repos] issues exactly three requests, for pages 1, 2
    and 3 with [pagelen] 100, and returns the 200 records of the first two
    pages, page by page and in API order within a page. *)
Theorem get_repos_three_pages fuel u t w s l1 l2 :
  3 <= fuel -> length l1 = 100 -> length l2 = 100 ->
  is_page (w_http w (st_nhttp s)) l1 ->
  is_page (w_http w (S (st_nhttp s))) l2 ->
  is_page (w_http w (S (S (st_nhttp s)))) [] ->
  fst (get_repos fuel u t w s) = Ret (l1 ++ l2) /\
  length (l1 ++ l2) = 200 /\
  http_events (new_events s (get_repos fuel u t w s)) =
    [page_request u t 1; page_request u t 2; page_request u t 3] /\
  map rq_pagelen (http_events (new_events s (get_repos fuel u t w s))) = [100; 100; 100] /\
  st_nhttp (snd (get_repos fuel u t w s)) = st_nhttp s + 3.
Proof.
  intros Hf H1 H2 P1 P2 P3.
  assert (E1 := page_outcome_page u _ _ P1).
  assert (E2 := page_outcome_page u _ _ P2).
  assert (E3 := page_outcome_page u _ _ P3).
  destruct l1 as [|a1 l1]; [discriminate|]. destruct l2 as [|a2 l2]; [discriminate|].
  unfold get_repos.
  replace fuel with (length [a1 :: l1; a2 :: l2] + S (fuel - 3)) by (simpl; lia).
  rewrite (get_repos_loop_pages [a1 :: l1; a2 :: l2]).
  2:{ intros [|[|i]] l Hl; simpl in Hl.
      - inversion Hl; subst. rewrite Nat.add_0_r. exact E1.
      - inversion Hl; subst. rewrite Nat.add_1_r. exact E2.
      - destruct i; discriminate. }
  rewrite get_repos_loop_empty.
  2:{ simpl. replace (st_nhttp s + 2) with (S (S (st_nhttp s))) by lia. exact E3. }
  unfold new_events. simpl snd. simpl fst.
  unfold with_log, advance_n. simpl st_trace. simpl st_nhttp.
  rewrite <- !app_assoc, skipn_new_events.
  rewrite app_nil_r. repeat split; try reflexivity; try lia.
  rewrite length_app. simpl in H1, H2 |- *. lia.
Qed.

(** C4: a response of status other than 200, reached after pages that keep
    the listing going, ends [get_repos] with the error of its status: 404
    gives the [ValueError] of an unknown user (UserNotFound), 403 the
    [PermissionError] (PermissionDenied), any other status the
    [ConnectionError] whose message carries the status code
    (TransportFailure).  [fetch] then raises the same error and has made no
    clone attempt. *)
Theorem listing_errors_are_fatal fuel w s ls :
  let u := username (st_params s) in
  let st := status_code (w_http w (st_nhttp s + length ls)) in
  (forall i l, nth_error ls i = Some l ->
     l <> [] /\ is_page (w_http w (st_nhttp s + i)) l) ->
  st <> 200%Z -> length ls < fuel ->
  fst (get_repos fuel u (token (st_params s)) w s) = Raise (listing_error u st) /\
  (st = 404%Z -> listing_error u st = ValueError (M_user_not_found u)) /\
  (st = 403%Z -> listing_error u st = PermissionError M_forbidden) /\
  (st <> 404%Z -> st <> 403%Z ->
     listing_error u st = ConnectionError (M_http_failed st)) /\
  (dir_ready w s (target_directory (st_params s)) ->
     fst (fetch fuel w s) = Raise (listing_error u st) /\
     clone_events (new_events s (fetch fuel w s)) = []).
Proof.
  intros u st Hp Hst Hf.
  assert (Hout : page_outcome u (w_http w (st_nhttp s + length ls)) =
                 PageError (listing_error u st)).
  { unfold page_outcome. fold st. apply Z.eqb_neq in Hst. rewrite Hst. reflexivity. }
  assert (Hget : forall s', st_nhttp s' = st_nhttp s ->
            fst (get_repos fuel u (token (st_params s)) w s') = Raise (listing_error u st)).
  { intros s' Hs'. apply (get_repos_error_after ls); auto.
    - rewrite Hs'. apply pages_outcome; auto.
    - rewrite Hs'. exact Hout. }
  split; [apply Hget; reflexivity|].
  split; [intros E; unfold listing_error; rewrite E; reflexivity|].
  split; [intros E; unfold listing_error; rewrite E; reflexivity|].
  split.
  { intros E1 E2. unfold listing_error.
    apply Z.eqb_neq in E1, E2. rewrite E1, E2. reflexivity. }
  intros Hready.
  set (T := target_directory (st_params s)).
  set (s0 := with_log s (M_start (username (st_params s)) T)).
  assert (Hr : fst (ensure_target T w s0) = Ret tt) by (apply ensure_target_ready; exact Hready).
  assert (Hn : st_nhttp (snd (ensure_target T w s0)) = st_nhttp s0) by apply ensure_target_nhttp.
  destruct (ensure_target_no_net T w s0) as [evs1 [Tr1 F1]].
  destruct (ensure_target T w s0) as [r1 s1] eqn:E1.
  simpl in Hr, Hn, Tr1. subst r1.
  assert (Hg := Hget s1 Hn). unfold get_repos in Hg.
  destruct (get_repos_loop_no_run fuel u (token (st_params s)) 1 [] w s1) as [evs2 [Tr2 F2]].
  destruct (get_repos_loop fuel u (token (st_params s)) 1 [] w s1) as [r2 s2] eqn:E2.
  simpl in Hg, Tr2. subst r2.
  assert (Hfetch : fetch fuel w s = (Raise (listing_error u st), s2)).
  { rewrite fetch_unfold. unfold s0, T in E1. unfold bind, get_repos.
    rewrite E1. fold u. rewrite E2. reflexivity. }
  rewrite Hfetch. split; [reflexivity|].
  unfold new_events. simpl. rewrite Tr2, Tr1.
  rewrite <- !app_assoc, skipn_new_events. apply clone_events_none.
  simpl. rewrite forallb_app, (no_net_no_run _ F1), F2. reflexivity.
Qed.

(** C6: when [target_directory] exists and is a file, [fetch] raises
    [NotADirectoryError] after logging it, and issues no HTTP request and no
    clone: its only events are the two log lines. *)
Theorem fetch_target_is_file fuel w s c :
  st_fs s (target_directory (st_params s)) = Some (NFile c) ->
  fst (fetch fuel w s) =
    Raise (NotADirectoryError (M_not_dir (target_directory (st_params s)))) /\
  new_events s (fetch fuel w s) =
    [ELog (M_start (username (st_params s)) (target_directory (st_params s)));
     ELog (M_not_dir (target_directory (st_params s)))] /\
  http_events (new_events s (fetch fuel w s)) = [] /\
  clone_events (new_events s (fetch fuel w s)) = [] /\
  st_nhttp (snd (fetch fuel w s)) = st_nhttp s.
Proof.
  intros H.
  assert (E : fetch fuel w s =
    (Raise (NotADirectoryError (M_not_dir (target_directory (st_params s)))),
     with_log (with_log s (M_start (username (st_params s))
                                   (target_directory (st_params s))))
              (M_not_dir (target_directory (st_params s))))).
  { rewrite fetch_unfold. unfold bind, ensure_target, path_exists, path_isdir, bind.
    repeat progress (simpl; rewrite ?H). reflexivity. }
  rewrite E. unfold new_events, with_log. simpl.
  rewrite <- app_assoc, skipn_new_events. repeat split; reflexivity.
Qed.

(** C7: when [target_directory] is absent, [fetch] calls [os.makedirs] on
    it right after its first log line, before any HTTP request.  If the
    creation fails, [fetch] logs the failure and raises the same error with
    no request made; if it succeeds, the target and all its ancestors are
    directories from then on. *)
Theorem fetch_creates_missing_target fuel w s :
  st_fs s (target_directory (st_params s)) = None ->
  (exists rest, new_events s (fetch fuel w s) =
     ELog (M_start (username (st_params s)) (target_directory (st_params s)))
     :: EMakedirs (target_directory (st_params s)) :: rest) /\
  (forall e, fst (makedirs (target_directory (st_params s)) w s) = Raise e ->
     fst (fetch fuel w s) = Raise e /\
     new_events s (fetch fuel w s) =
       [ELog (M_start (username (st_params s)) (target_directory (st_params s)));
        EMakedirs (target_directory (st_params s));
        ELog (M_mkdir_failed (target_directory (st_params s)) (exn_text e))]) /\
  (fst (makedirs (target_directory (st_params s)) w s) = Ret tt ->
     (exists rest, new_events s (fetch fuel w s) =
        [ELog (M_start (username (st_params s)) (target_directory (st_params s)));
         EMakedirs (target_directory (st_params s));
         ELog (M_created (target_directory (st_params s)))] ++ rest) /\
     forall q, In q (prefixes (target_directory (st_params s))) ->
       st_fs (snd (fetch fuel w s)) q = Some NDir).
Proof.
  intros HT.
  destruct (ensure_target_absent (target_directory (st_params s)) w
              (with_log s (M_start (username (st_params s))
                                   (target_directory (st_params s)))) HT)
    as [Hfail Hok].
  assert (Hm : fst (makedirs (target_directory (st_params s)) w
                     (with_log s (M_start (username (st_params s))
                                          (target_directory (st_params s))))) =
               fst (makedirs (target_directory (st_params s)) w s))
    by (apply makedirs_fs_only; reflexivity).
  assert (Cfail : forall e, fst (makedirs (target_directory (st_params s)) w s) = Raise e ->
     fst (fetch fuel w s) = Raise e /\
     new_events s (fetch fuel w s) =
       [ELog (M_start (username (st_params s)) (target_directory (st_params s)));
        EMakedirs (target_directory (st_params s));
        ELog (M_mkdir_failed (target_directory (st_params s)) (exn_text e))]).
  { intros e He. rewrite <- Hm in He.
    rewrite fetch_unfold. unfold bind. rewrite (Hfail e He). simpl.
    split; [reflexivity|]. unfold new_events, with_log. simpl.
    rewrite <- !app_assoc, skipn_new_events. reflexivity. }
  assert (Cok : fst (makedirs (target_directory (st_params s)) w s) = Ret tt ->
     (exists rest, new_events s (fetch fuel w s) =
        [ELog (M_start (username (st_params s)) (target_directory (st_params s)));
         EMakedirs (target_directory (st_params s));
         ELog (M_created (target_directory (st_params s)))] ++ rest) /\
     forall q, In q (prefixes (target_directory (st_params s))) ->
       st_fs (snd (fetch fuel w s)) q = Some NDir).
  { intros Hs. rewrite <- Hm in Hs. destruct (Hok Hs) as (s1 & E1 & Tr1 & Fs1 & _).
    destruct (get_repos_loop_no_run fuel (username (st_params s)) (token (st_params s))
                1 [] w s1) as [evs2 [Tr2 _]].
    assert (Fs2 := get_repos_loop_pres_fs fuel (username (st_params s))
                     (token (st_params s)) 1 [] w s1).
    destruct (get_repos_loop fuel (username (st_params s)) (token (st_params s)) 1 [] w s1)
      as [o2 s2] eqn:E2.
    simpl in Tr2, Fs2.
    assert (Hf : fetch fuel w s =
      match o2 with
      | Ret a => clone_phase (target_directory (st_params s)) (username (st_params s)) a w s2
      | Raise e => (Raise e, s2)
      | NoFuel => (NoFuel, s2)
      end).
    { rewrite fetch_unfold. unfold bind at 1. rewrite E1.
      unfold bind, get_repos. rewrite E2. reflexivity. }
    assert (Htr : exists evs, st_trace (snd (fetch fuel w s)) = st_trace s2 ++ evs).
    { rewrite Hf. destruct o2 as [a|e|]; simpl; try (exists []; rewrite app_nil_r; reflexivity).
      destruct (clone_phase_no_http (target_directory (st_params s)) (username (st_params s))
                  a w s2) as [evs3 [Tr3 _]].
      eauto. }
    assert (Hfs : st_fs (snd (fetch fuel w s)) = st_fs s2).
    { rewrite Hf. destruct o2 as [a|e|]; simpl; auto. apply clone_phase_fs. }
    split.
    - destruct Htr as [evs Htr]. exists (evs2 ++ evs).
      unfold new_events. rewrite Htr, Tr2, Tr1. unfold with_log. simpl.
      rewrite <- !app_assoc, skipn_new_events. reflexivity.
    - intros q Hq. rewrite Hfs, Fs2. apply Fs1; exact Hq. }
  split; [|split; [exact Cfail|exact Cok]].
  destruct (fst (makedirs (target_directory (st_params s)) w s)) as [[]|e|] eqn:Em.
  - destruct (Cok eq_refl) as [[rest Hr] _]. exists (ELog (M_created (target_directory (st_params s))) :: rest).
    exact Hr.
  - destruct (Cfail e eq_refl) as [_ Hr]. rewrite Hr. eexists; reflexivity.
  - exfalso. revert Em. unfold makedirs, bind, emit. simpl.
    destruct (w_mkdir_fail w); [discriminate|].
    destruct (match target_directory (st_params s) with [] => true | _ => false end);
      [discriminate|].
    destruct (existsb _ _); discriminate.
Qed.

(** C9: no method of the adapter changes [self.params]; the page counter
    and the list of repositories live in one call of [get_repos]: every
    [fetch], whatever ran before it, requests pages 1, 2, ..., k in this
    order, all with the [username] and [token] of [self.params]. *)
Theorem params_never_mutated fuel w s :
  st_params (snd (fetch fuel w s)) = st_params s /\
  st_params (snd (get_repos fuel (username (st_params s)) (token (st_params s)) w s)) =
    st_params s /\
  st_params (snd (get_icon w s)) = st_params s /\
  st_params (snd (get_connection_data w s)) = st_params s /\
  exists k, http_events (new_events s (fetch fuel w s)) =
    map (page_request (username (st_params s)) (token (st_params s))) (seq 1 k).
Proof.
  split; [apply fetch_params|].
  split; [apply get_repos_loop_pres_params|].
  split; [reflexivity|]. split; [reflexivity|].
  set (s0 := with_log s (M_start (username (st_params s)) (target_directory (st_params s)))).
  destruct (ensure_target_no_net (target_directory (st_params s)) w s0) as [evs1 [Tr1 F1]].
  assert (P1 := ensure_target_params (target_directory (st_params s)) w s0).
  destruct (ensure_target (target_directory (st_params s)) w s0) as [o1 s1] eqn:E1.
  simpl in Tr1, P1.
  assert (Hf0 : fetch fuel w s = bind (get_repos fuel (username (st_params s)) (token (st_params s)))
                  (clone_phase (target_directory (st_params s)) (username (st_params s))) w s1
                \/ fetch fuel w s = (match o1 with Ret _ => NoFuel | Raise e => Raise e
                                     | NoFuel => NoFuel end, s1)).
  { rewrite fetch_unfold. fold s0. unfold bind. rewrite E1.
    destruct o1; [left|right|right]; reflexivity. }
  assert (Hs0 : forall evs, st_trace s1 ++ evs = st_trace s ++ ELog (M_start (username (st_params s))
            (target_directory (st_params s))) :: evs1 ++ evs).
  { intros evs. rewrite Tr1. unfold s0, with_log. simpl. rewrite <- !app_assoc. reflexivity. }
  destruct Hf0 as [Hf|Hf].
  - destruct (get_repos_loop_pages_from fuel (username (st_params s)) (token (st_params s))
                1 [] w s1) as (evs2 & k & Tr2 & H2).
    exists k. unfold get_repos, bind in Hf.
    destruct (get_repos_loop fuel (username (st_params s)) (token (st_params s)) 1 [] w s1)
      as [o2 s2] eqn:E2.
    simpl in Tr2.
    assert (Hev : exists evs3, st_trace (snd (fetch fuel w s)) = st_trace s2 ++ evs3 /\
                               forallb no_http evs3 = true).
    { rewrite Hf. destruct o2 as [a|e|]; simpl;
        [apply clone_phase_no_http|exists []; rewrite app_nil_r; auto..]. }
    destruct Hev as (evs3 & Tr3 & F3).
    unfold new_events. rewrite Tr3, Tr2, <- app_assoc, Hs0, skipn_new_events.
    simpl. rewrite !http_events_app, H2, (http_events_none _ F3),
      (http_events_none _ (no_net_no_http _ F1)), app_nil_r. reflexivity.
  - exists 0. unfold new_events. rewrite Hf. simpl.
    rewrite <- (app_nil_r (st_trace s1)), Hs0, skipn_new_events. simpl.
    rewrite http_events_app, (http_events_none _ (no_net_no_http _ F1)). reflexivity.
Qed.

(** C8 (as stated, refuted): a sequence of responses none of which is an
    empty page does not always make the loop run forever: with every
    response a 403, no page is ever empty and [get_repos] ends at once with
    [PermissionError]. *)
Lemma get_repos_no_empty_page_terminates :
  ~ (forall w s u t,
       (forall i, page_outcome u (w_http w (st_nhttp s + i)) <> PageEmpty) ->
       forall fuel, fst (get_repos fuel u t w s) = NoFuel).
Proof.
  intros H.
  assert (E := H forbidden_world (init_state demo_params no_fs) "alice" "t0k"
                 (fun i => ltac:(discriminate)) 1).
  vm_compute in E. discriminate.
Qed.

(** C8 (amended): each response of the loop of [get_repos] has one of the
    three effects of [page_outcome].  A 200 whose ['values'] is missing or
    falsy ends the loop ([PageEmpty]); a non-200, a 200 whose body is not a
    dict, or one whose ['values'] is a non-zero number or [true] raises
    ([PageError]); a 200 whose ['values'] is a non-empty list, string or
    dict goes on with its items, characters or keys ([PageItems]).  After
    the items of [ls], an ending response returns the records of [ls] in
    order and a raising one raises; a response of these two kinds always
    ends the loop; and when every response goes on, the loop never ends,
    whatever the fuel (there is no page cap). *)
Theorem get_repos_termination u t w s :
  (forall ls fuel,
     (forall i l, nth_error ls i = Some l ->
        page_outcome u (w_http w (st_nhttp s + i)) = PageItems l) ->
     length ls < fuel ->
     (page_outcome u (w_http w (st_nhttp s + length ls)) = PageEmpty ->
        fst (get_repos fuel u t w s) = Ret (concat ls)) /\
     (forall e, page_outcome u (w_http w (st_nhttp s + length ls)) = PageError e ->
        fst (get_repos fuel u t w s) = Raise e)) /\
  ((exists i, forall l, page_outcome u (w_http w (st_nhttp s + i)) <> PageItems l) ->
     exists fuel0, forall fuel, fuel0 <= fuel ->
       fst (get_repos fuel u t w s) <> NoFuel /\
       fst (get_repos fuel u t w s) = fst (get_repos fuel0 u t w s)) /\
  ((forall i, exists l, page_outcome u (w_http w (st_nhttp s + i)) = PageItems l) ->
     forall fuel, fst (get_repos fuel u t w s) = NoFuel).
Proof.
  assert (A : forall ls fuel,
     (forall i l, nth_error ls i = Some l ->
        page_outcome u (w_http w (st_nhttp s + i)) = PageItems l) ->
     length ls < fuel ->
     (page_outcome u (w_http w (st_nhttp s + length ls)) = PageEmpty ->
        fst (get_repos fuel u t w s) = Ret (concat ls)) /\
     (forall e, page_outcome u (w_http w (st_nhttp s + length ls)) = PageError e ->
        fst (get_repos fuel u t w s) = Raise e)).
  { intros ls fuel Hp Hf. split.
    - intros He. unfold get_repos.
      replace fuel with (length ls + S (fuel - S (length ls))) by lia.
      rewrite (get_repos_loop_pages ls _ _ _ _ _ _ _ Hp).
      rewrite get_repos_loop_empty; [reflexivity|]. exact He.
    - intros e He. apply (get_repos_error_after ls); auto. }
  split; [exact A|]. split.
  - intros [i0 Hi0].
    destruct (first_non_page u w i0 (st_nhttp s) Hi0) as (ls & _ & Hp & Hs).
    assert (B : forall fuel, length ls < fuel ->
              exists r, fst (get_repos fuel u t w s) = r /\ r <> NoFuel /\
                (forall f, length ls < f -> fst (get_repos f u t w s) = r)).
    { intros fuel Hf.
      destruct (page_outcome u (w_http w (st_nhttp s + length ls))) as [|l|e] eqn:E.
      - exists (Ret (concat ls)). repeat split; try discriminate.
        + apply (proj1 (A ls fuel Hp Hf)); auto.
        + intros f Hf'. apply (proj1 (A ls f Hp Hf')); auto.
      - exfalso. exact (Hs l eq_refl).
      - exists (Raise e). repeat split; try discriminate.
        + apply (proj2 (A ls fuel Hp Hf)); auto.
        + intros f Hf'. apply (proj2 (A ls f Hp Hf')); auto. }
    exists (S (length ls)). intros fuel Hf.
    destruct (B (S (length ls)) (le_n _)) as (r & E0 & Hr & Hall).
    rewrite E0, (Hall fuel Hf). auto.
  - intros H fuel. apply get_repos_loop_forever.
    intros j Hj. destruct (H (j - st_nhttp s)) as [l E].
    exists l. replace j with (st_nhttp s + (j - st_nhttp s)) by lia. exact E.
Qed.

(** C10: extracting the clone URL skips a record (a dict) that has no
    ['links'] key, or whose ['links'] dict has no ['clone'] key: the record
    is logged as having no clone URL, with no exception and no clone.  A
    record whose ['links'] binds ['clone'] to an empty list makes the
    extraction raise [IndexError]; the loop of [fetch] has no handler, so
    once the records before it are processed the error leaves [fetch]. *)
Theorem clone_url_extraction T kvs :
  ((assoc "links" kvs = None \/
    exists lk, assoc "links" kvs = Some (JObj lk) /\ assoc "clone" lk = None) ->
   forall w s, process_repo T (JObj kvs) w s =
               (Ret tt, with_log s (M_no_clone_url (repo_name_of kvs)))) /\
  (forall lk, assoc "links" kvs = Some (JObj lk) -> assoc "clone" lk = Some (JList []) ->
   (forall w s, process_repo T (JObj kvs) w s = (Raise IndexError, s)) /\
   (forall fuel w s s1 s2 pre post,
      T = target_directory (st_params s) ->
      ensure_target T w (with_log s (M_start (username (st_params s)) T)) = (Ret tt, s1) ->
      get_repos fuel (username (st_params s)) (token (st_params s)) w s1 =
        (Ret (pre ++ JObj kvs :: post), s2) ->
      fst (for_each T pre w
             (with_log s2 (M_found (length (pre ++ JObj kvs :: post))))) = Ret tt ->
      fst (fetch fuel w s) = Raise IndexError)).
Proof.
  split.
  - intros Hk w s. unfold process_repo, bind, py_get. simpl.
    destruct Hk as [Hl | (lk & Hl & Hc)]; rewrite Hl; simpl; [|rewrite Hc; simpl];
      unfold repo_name_of; destruct (assoc "name" kvs); reflexivity.
  - intros lk Hl Hc.
    assert (Hp : forall w s, process_repo T (JObj kvs) w s = (Raise IndexError, s)).
    { intros w s. unfold process_repo, bind, py_get. simpl. rewrite Hl. simpl.
      rewrite Hc. reflexivity. }
    split; [exact Hp|].
    intros fuel w s s1 s2 pre post HT E1 E2 Hpre.
    rewrite fetch_unfold. rewrite <- HT. unfold bind at 1. rewrite E1.
    unfold bind at 1. rewrite E2. unfold clone_phase.
    destruct (pre ++ JObj kvs :: post) as [|r rest] eqn:Erepos.
    { destruct pre; discriminate. }
    rewrite <- Erepos in Hpre |- *.
    unfold bind at 1. unfold log, emit at 1. simpl.
    unfold bind. rewrite (for_each_app _ _ _ _ _ Hpre). simpl.
    unfold bind. rewrite Hp. reflexivity.
Qed.

(** C1 (as stated, refuted): an [icon.svg] next to the adapter is not
    what [get_icon] returns. *)
Lemma get_icon_ignores_icon_file :
  ~ (forall w s dir c, st_fs s (dir ++ ["icon.svg"]) = Some (NFile c) ->
       fst (get_icon w s) = Ret c).
Proof.
  intros H.
  assert (E := H (demo_world [] []) (init_state demo_params icon_fs) [] "<svg/>"
                 eq_refl).
  vm_compute in E. discriminate.
Qed.

(** C1 (amended): [get_icon] returns the built-in SVG literal for every
    invocation, whatever the filesystem holds; it reads no file, never
    raises and leaves the state unchanged. *)
Theorem get_icon_builtin w s : get_icon w s = (Ret fallback_svg, s).
Proof. reflexivity. Qed.

(** C2 (code at the failing input): with records [empty_clone_rec] and a
    record with a clone URL, [fetch] raises [IndexError] and makes no clone
    attempt instead of one; with three records of which the second has no
    [links] and the first clone fails with a non-UTF-8 standard error,
    [fetch] raises [UnicodeDecodeError] after one clone attempt instead of
    two. *)
Theorem fetch_skip_record_fails :
  fst (fetch 5 (demo_world [ok_page [empty_clone_rec; repo_rec "b" "u2"]] [])
         (init_state demo_params no_fs)) = Raise IndexError /\
  clone_events (new_events (init_state demo_params no_fs)
    (fetch 5 (demo_world [ok_page [empty_clone_rec; repo_rec "b" "u2"]] [])
       (init_state demo_params no_fs))) = [] /\
  fst (fetch 5 (demo_world [ok_page [repo_rec "a" "u1"; no_links_rec; repo_rec "c" "u3"]]
                  [RunExit 128 bad_stderr])
         (init_state demo_params no_fs)) = Raise UnicodeDecodeError /\
  length (clone_events (new_events (init_state demo_params no_fs)
    (fetch 5 (demo_world [ok_page [repo_rec "a" "u1"; no_links_rec; repo_rec "c" "u3"]]
                [RunExit 128 bad_stderr])
       (init_state demo_params no_fs)))) = 1.
Proof. vm_compute. repeat split. Qed.

(** C5 (code at the failing input): three repositories whose second clone
    exits with code 128 and a standard error that is not UTF-8: decoding it
    in the handler raises [UnicodeDecodeError], which leaves [fetch]; the
    third repository is never attempted. *)
Theorem fetch_clone_failure_escapes :
  fst (fetch 5 (demo_world [ok_page [repo_rec "a" "u1"; repo_rec "b" "u2"; repo_rec "c" "u3"]]
                  [RunExit 0 []; RunExit 128 bad_stderr; RunExit 0 []])
         (init_state demo_params no_fs)) = Raise UnicodeDecodeError /\
  clone_events (new_events (init_state demo_params no_fs)
    (fetch 5 (demo_world [ok_page [repo_rec "a" "u1"; repo_rec "b" "u2"; repo_rec "c" "u3"]]
                [RunExit 0 []; RunExit 128 bad_stderr; RunExit 0 []])
       (init_state demo_params no_fs))) =
    [[JStr "git"; JStr "clone"; JStr "u1"]; [JStr "git"; JStr "clone"; JStr "u2"]].
Proof. vm_compute. split; reflexivity. Qed.

(** ** Witnesses: the claims' hypotheses hold of concrete runs *)

Lemma get_repos_three_pages_witness :
  fst (get_repos 3 "alice" "t0k" three_pages_world (init_state demo_params no_fs)) =
  Ret (hundred 1 ++ hundred 2).
Proof.
  refine (proj1 (get_repos_three_pages 3 "alice" "t0k" three_pages_world
                   (init_state demo_params no_fs) (hundred 1) (hundred 2) _ _ _ _ _ _));
    try lia; try reflexivity;
    (split; [reflexivity|eexists; split; reflexivity]).
Defined.

Lemma listing_errors_are_fatal_witness :
  fst (fetch 5 not_found_world (init_state demo_params no_fs)) =
  Raise (listing_error "alice" 404).
Proof.
  assert (Hp : forall i l, nth_error [[repo_rec "a" "u1"]] i = Some l ->
            l <> [] /\ is_page (w_http not_found_world
                                   (st_nhttp (init_state demo_params no_fs) + i)) l).
  { intros [|[|i]] l Hl; simpl in Hl; try discriminate.
    inversion Hl; subst. split; [discriminate|].
    split; [reflexivity|eexists; split; reflexivity]. }
  assert (Hr : dir_ready not_found_world (init_state demo_params no_fs)
                 (target_directory (st_params (init_state demo_params no_fs)))).
  { right. repeat split; try reflexivity. discriminate. }
  exact (proj1 (proj2 (proj2 (proj2 (proj2
           (listing_errors_are_fatal 5 not_found_world (init_state demo_params no_fs)
              [[repo_rec "a" "u1"]] Hp ltac:(vm_compute; discriminate) ltac:(simpl; lia)))))
           Hr)).
Defined.

Lemma fetch_target_is_file_witness :
  fst (fetch 5 (demo_world [] []) (init_state demo_params file_fs)) =
  Raise (NotADirectoryError (M_not_dir ["home"; "repos"])).
Proof.
  exact (proj1 (fetch_target_is_file 5 (demo_world [] []) (init_state demo_params file_fs)
                  "x" eq_refl)).
Defined.

Lemma fetch_creates_missing_target_witness :
  exists rest,
    new_events (init_state demo_params no_fs)
      (fetch 5 (demo_world [] []) (init_state demo_params no_fs)) =
    [ELog (M_start "alice" ["home"; "repos"]); EMakedirs ["home"; "repos"];
     ELog (M_created ["home"; "repos"])] ++ rest.
Proof.
  exact (proj1 (proj2 (proj2 (fetch_creates_missing_target 5 (demo_world [] [])
                                (init_state demo_params no_fs) eq_refl)) eq_refl)).
Defined.

Lemma get_repos_termination_witness :
  fst (get_repos 2 "alice" "t0k" (demo_world [ok_page [repo_rec "a" "u1"]; ok_page []] [])
         (init_state demo_params no_fs)) = Ret [repo_rec "a" "u1"].
Proof.
  assert (Hp : forall i l, nth_error [[repo_rec "a" "u1"]] i = Some l ->
            page_outcome "alice"
              (w_http (demo_world [ok_page [repo_rec "a" "u1"]; ok_page []] [])
                 (st_nhttp (init_state demo_params no_fs) + i)) = PageItems l).
  { intros [|[|i]] l Hl; simpl in Hl; try discriminate.
    inversion Hl; subst. reflexivity. }
  exact (proj1 (proj1 (get_repos_termination "alice" "t0k"
            (demo_world [ok_page [repo_rec "a" "u1"]; ok_page []] [])
            (init_state demo_params no_fs)) [[repo_rec "a" "u1"]] 2 Hp
            ltac:(simpl; lia)) eq_refl).
Defined.

Lemma clone_url_extraction_witness :
  process_repo ["home"; "repos"] no_links_rec (demo_world [] [])
    (init_state demo_params no_fs) =
  (Ret tt, with_log (init_state demo_params no_fs) (M_no_clone_url (JStr "b"))).
Proof.
  exact (proj1 (clone_url_extraction ["home"; "repos"] [("name", JStr "b")])
           (or_introl eq_refl) (demo_world [] []) (init_state demo_params no_fs)).
Defined.

(** * Further properties of the adapter *)

(** ** [clone_repo] in one step *)

Lemma clone_repo_run url T name w s :
  clone_repo url T name w s =
  (match w_run w (st_nrun s) with
   | RunExit code err =>
       if Z.eqb code 0 || utf8_valid err then Ret tt else Raise UnicodeDecodeError
   | RunFail _ => Ret tt
   end,
   {| st_fs := st_fs s; st_params := st_params s;
      st_trace := st_trace s ++ [ELog (M_cloning name url); ERun (clone_args url) T] ++
        match w_run w (st_nrun s) with
        | RunExit code err =>
            if Z.eqb code 0 then [ELog (M_cloned name)]
            else if utf8_valid err then [ELog (M_clone_error name err)] else []
        | RunFail e => [ELog (M_clone_unexpected name e)]
        end;
      st_nhttp := st_nhttp s; st_nrun := S (st_nrun s) |}).
Proof.
  unfold clone_repo, try_except, bind, log, emit, subprocess_run, bind, emit. simpl.
  destruct (w_run w (st_nrun s)) as [code err|m]; simpl.
  - destruct (Z.eqb code 0); simpl.
    + rewrite <- !app_assoc. reflexivity.
    + unfold decode. destruct (utf8_valid err); simpl; unfold log, emit, ret, raise;
        simpl; rewrite <- !app_assoc; reflexivity.
  - rewrite <- !app_assoc. reflexivity.
Qed.

Lemma utf8_valid_ascii l :
  Forall (fun b => Nat.ltb (Byte.to_nat b) 128 = true) l -> utf8_valid l = true.
Proof.
  induction 1 as [|b l Hb _ IH]; [reflexivity|]. simpl. rewrite Hb. exact IH.
Qed.

(** ** Reading records and running the clone loop *)

Lemma bind_ret {A B} (a : A) (k : A -> M B) : bind (ret a) k = k a.
Proof. reflexivity. Qed.
Lemma bind_raise {A B} e (k : A -> M B) : bind (raise e) k = raise e.
Proof. reflexivity. Qed.
Lemma py_get_obj kvs k d :
  py_get (JObj kvs) k d = ret (match assoc k kvs with Some v => v | None => d end).
Proof. unfold py_get. destruct (assoc k kvs); reflexivity. Qed.

(** A record whose extraction raises, in the three-part form of
    [process_repo_cases]. *)
Ltac raises := split; [intros _; eexists; reflexivity|split; intros; discriminate].

Lemma process_repo_cases T r w s :
  (clone_href r = None -> exists e, process_repo T r w s = (Raise e, s)) /\
  (clone_href r = Some None ->
     process_repo T r w s = (Ret tt, with_log s (M_no_clone_url (record_name r)))) /\
  (forall u, clone_href r = Some (Some u) ->
     process_repo T r w s = clone_repo u T (record_name r) w s).
Proof.
  unfold process_repo, clone_href, record_name, repo_name_of.
  destruct r as [| | | | |kvs]; try raises.
  rewrite !py_get_obj, bind_ret.
  destruct (match assoc "links" kvs with Some v => v | None => JObj [] end)
    as [| | | | |lk]; try raises.
  rewrite py_get_obj, bind_ret.
  destruct (match assoc "clone" lk with Some v => v | None => JList [JObj []] end)
    as [| | |str|l|]; try raises.
  - destruct str; [raises|]. raises.
  - destruct l as [|f rest]; [raises|]. simpl py_index0. rewrite bind_ret.
    destruct f as [| | | | |fk]; try raises.
    rewrite py_get_obj, bind_ret, bind_ret.
    destruct (assoc "href" fk) as [v|]; simpl.
    + destruct (truthy v) eqn:Ev.
      * split; [discriminate|split; [discriminate|]]. intros u E. inversion E; subst. reflexivity.
      * split; [discriminate|split; [|discriminate]]. intros _. reflexivity.
    + split; [discriminate|split; [|discriminate]]. intros _. reflexivity.
Qed.

Lemma clone_events_app a b : clone_events (a ++ b) = clone_events a ++ clone_events b.
Proof. apply flat_map_app. Qed.

Lemma process_repo_ok T r w s :
  clone_href r <> None -> runs_decodable w ->
  exists s', process_repo T r w s = (Ret tt, s') /\
  exists evs, st_trace s' = st_trace s ++ evs /\
    clone_events evs = match clone_href r with Some (Some u) => [clone_args u] | _ => [] end /\
    st_nrun s' = st_nrun s + length (clone_events evs) /\ st_nhttp s' = st_nhttp s.
Proof.
  intros Hc Hw. destruct (process_repo_cases T r w s) as (H0 & H1 & H2).
  destruct (clone_href r) as [[u|]|]; [|clear H0 H2|congruence].
  - rewrite (H2 u eq_refl), clone_repo_run.
    destruct (w_run w (st_nrun s)) as [code err|m] eqn:E.
    + destruct (Z.eqb code 0) eqn:Ez; simpl.
      * eexists; split; [reflexivity|]. eexists; split; [reflexivity|]. simpl.
        split; [reflexivity|]. split; [lia|reflexivity].
      * rewrite (Hw _ _ _ E Ez). eexists; split; [reflexivity|].
        eexists; split; [reflexivity|]. simpl.
        split; [reflexivity|]. split; [lia|reflexivity].
    + eexists; split; [reflexivity|]. eexists; split; [reflexivity|].
      simpl. split; [reflexivity|]. split; [lia|reflexivity].
  - rewrite (H1 eq_refl). eexists; split; [reflexivity|].
    exists [ELog (M_no_clone_url (record_name r))]. simpl.
    split; [reflexivity|]. split; [reflexivity|]. split; [lia|reflexivity].
Qed.

Lemma for_each_ok T rs w s :
  Forall (fun r => clone_href r <> None) rs -> runs_decodable w ->
  exists s', for_each T rs w s = (Ret tt, s') /\
  exists evs, st_trace s' = st_trace s ++ evs /\ clone_events evs = clone_calls rs /\
    st_nrun s' = st_nrun s + length (clone_calls rs) /\ st_nhttp s' = st_nhttp s.
Proof.
  intros Hf Hw. revert s. induction Hf as [|r rs Hr Hf IH]; intros s.
  - exists s. split; [reflexivity|]. exists []. rewrite app_nil_r. simpl.
    split; [reflexivity|]. split; [reflexivity|]. split; [lia|reflexivity].
  - destruct (process_repo_ok T r w s Hr Hw) as (s1 & E1 & evs1 & T1 & C1 & N1 & H1).
    destruct (IH s1) as (s2 & E2 & evs2 & T2 & C2 & N2 & H2).
    exists s2. simpl. unfold bind. rewrite E1, E2. split; [reflexivity|].
    exists (evs1 ++ evs2). rewrite T2, T1, app_assoc. split; [reflexivity|].
    rewrite clone_events_app, C1, C2. unfold clone_calls. simpl.
    fold (clone_calls rs). split; [reflexivity|].
    rewrite N2, N1, C1, length_app. split; [lia|congruence].
Qed.

Lemma clone_events_pages u t p k : clone_events (pages_trace u t p k) = [].
Proof. revert p; induction k; intros p; simpl; auto. Qed.

Lemma clone_events_no_run tr : forallb no_net tr = true -> clone_events tr = [].
Proof. intros H. apply clone_events_none, no_net_no_run, H. Qed.

(** [fetch] up to its clone phase, when the target is usable and the
    listing ends on an empty page after the pages [ls]. *)
Lemma fetch_to_clone_phase fuel w s ls :
  let u := username (st_params s) in
  let T := target_directory (st_params s) in
  dir_ready w s T ->
  (forall i l, nth_error ls i = Some l ->
     page_outcome u (w_http w (st_nhttp s + i)) = PageItems l) ->
  page_outcome u (w_http w (st_nhttp s + length ls)) = PageEmpty ->
  length ls < fuel ->
  exists s2 evs, fetch fuel w s = clone_phase T u (concat ls) w s2 /\
    st_trace s2 = st_trace s ++ evs /\ clone_events evs = [] /\
    st_nrun s2 = st_nrun s.
Proof.
  intros u T Hd Hp He Hf. rewrite fetch_unfold. fold u T.
  set (s0 := with_log s (M_start u T)).
  assert (Hd0 : dir_ready w s0 T) by exact Hd.
  pose proof (ensure_target_ready w s0 T Hd0) as E1.
  destruct (ensure_target_no_net T w s0) as (e1 & T1 & N1).
  pose proof (ensure_target_nhttp T w s0) as H1.
  pose proof (ensure_target_nrun T w s0) as R1.
  destruct (ensure_target T w s0) as [r1 s1] eqn:Et. simpl in E1, T1, N1, H1, R1.
  subst r1. unfold bind at 1. rewrite Et.
  replace fuel with (length ls + S (fuel - S (length ls))) by lia.
  unfold get_repos, bind at 1.
  rewrite (get_repos_loop_pages ls _ _ _ _ _ _ _).
  2:{ intros i l Hi. rewrite H1. apply Hp, Hi. }
  rewrite get_repos_loop_empty.
  2:{ simpl. rewrite H1. exact He. }
  eexists; exists (ELog (M_start u T) :: e1 ++ pages_trace u (token (st_params s)) 1 (length ls) ++
              [ELog (M_fetch_page (1 + length ls) u);
               EHttpGet (page_request u (token (st_params s)) (1 + length ls));
               ELog M_no_more]).
  split; [reflexivity|]. simpl. rewrite T1. simpl.
  split; [rewrite <- !app_assoc; reflexivity|].
  split.
  - rewrite clone_events_app, clone_events_no_run by exact N1.
    rewrite clone_events_app, clone_events_pages. reflexivity.
  - exact R1.
Qed.

Lemma path_eqb_true p q : path_eqb p q = true -> p = q.
Proof. unfold path_eqb. destruct (list_eq_dec string_dec p q); congruence. Qed.

(** ** Properties of the clone step, the records, the listing and [fetch] *)

(** [clone_repo] returns normally on a successful [git clone], on a start failure and on a non-zero exit whose standard error decodes; the only exception it lets out is [UnicodeDecodeError], on a non-zero exit whose standard error is not UTF-8. *)
Theorem clone_repo_outcome url T name w s :
  fst (clone_repo url T name w s) =
  match w_run w (st_nrun s) with
  | RunExit code err =>
      if Z.eqb code 0 || utf8_valid err then Ret tt else Raise UnicodeDecodeError
  | RunFail _ => Ret tt
  end.
Proof. rewrite clone_repo_run. reflexivity. Qed.

(** [clone_repo] logs the attempt, runs [git clone <url>] in the target directory once, then logs success, the decoded error, or the unexpected failure (nothing when the decoding raises); it sends no HTTP request. *)
Theorem clone_repo_trace url T name w s :
  new_events s (clone_repo url T name w s) =
    [ELog (M_cloning name url); ERun (clone_args url) T] ++
    match w_run w (st_nrun s) with
    | RunExit code err =>
        if Z.eqb code 0 then [ELog (M_cloned name)]
        else if utf8_valid err then [ELog (M_clone_error name err)] else []
    | RunFail e => [ELog (M_clone_unexpected name e)]
    end /\
  st_nrun (snd (clone_repo url T name w s)) = S (st_nrun s) /\
  st_nhttp (snd (clone_repo url T name w s)) = st_nhttp s.
Proof.
  rewrite clone_repo_run. unfold new_events. simpl.
  rewrite skipn_new_events. repeat split.
Qed.

(** A failing [git] whose standard error is ASCII never makes [clone_repo] raise. *)
Theorem clone_repo_ascii_stderr url T name w s :
  (forall code err, w_run w (st_nrun s) = RunExit code err ->
     Forall (fun b => Nat.ltb (Byte.to_nat b) 128 = true) err) ->
  fst (clone_repo url T name w s) = Ret tt.
Proof.
  intros H. apply clone_repo_catches. intros code err E.
  apply utf8_valid_ascii, (H code err E).
Qed.

(** One record of the loop of [fetch]: when the extraction of its first clone URL raises, the exception leaves the state untouched; a falsy URL logs the skip under the record's name (default ['Unnamed Repository']); a truthy URL is cloned under that name. *)
Theorem process_repo_extraction T r w s :
  (clone_href r = None -> exists e, process_repo T r w s = (Raise e, s)) /\
  (clone_href r = Some None ->
     process_repo T r w s = (Ret tt, with_log s (M_no_clone_url (record_name r)))) /\
  (forall u, clone_href r = Some (Some u) ->
     process_repo T r w s = clone_repo u T (record_name r) w s).
Proof. apply process_repo_cases. Qed.

(** Malformed records raise before any log or clone: a record or a ['links'] that is not a dict gives [AttributeError], a ['clone'] dict gives [KeyError], a first clone entry that is not a dict gives [AttributeError], a ['clone'] that is null, a boolean or a number gives [TypeError]. *)
Theorem process_repo_malformed T w s :
  (forall r, (forall kvs, r <> JObj kvs) ->
     process_repo T r w s = (Raise AttributeError, s)) /\
  (forall kvs links, assoc "links" kvs = Some links -> (forall lk, links <> JObj lk) ->
     process_repo T (JObj kvs) w s = (Raise AttributeError, s)) /\
  (forall kvs lk ck, assoc "links" kvs = Some (JObj lk) ->
     assoc "clone" lk = Some (JObj ck) ->
     process_repo T (JObj kvs) w s = (Raise KeyError, s)) /\
  (forall kvs lk x rest, assoc "links" kvs = Some (JObj lk) ->
     assoc "clone" lk = Some (JList (x :: rest)) -> (forall fk, x <> JObj fk) ->
     process_repo T (JObj kvs) w s = (Raise AttributeError, s)) /\
  (forall kvs lk c, assoc "links" kvs = Some (JObj lk) -> assoc "clone" lk = Some c ->
     match c with JNull | JBool _ | JNum _ => True | _ => False end ->
     process_repo T (JObj kvs) w s = (Raise TypeError, s)).
Proof.
  unfold process_repo. split; [|split; [|split; [|split]]].
  - intros r H. destruct r as [| | | | |kvs]; try reflexivity.
    exfalso. apply (H kvs). reflexivity.
  - intros kvs links El H. rewrite py_get_obj, bind_ret, El.
    destruct links as [| | | | |lk]; try reflexivity.
    exfalso. apply (H lk). reflexivity.
  - intros kvs lk ck El Ec. rewrite py_get_obj, bind_ret, El, py_get_obj, bind_ret, Ec.
    reflexivity.
  - intros kvs lk x rest El Ec H.
    rewrite py_get_obj, bind_ret, El, py_get_obj, bind_ret, Ec. simpl py_index0.
    rewrite bind_ret. destruct x as [| | | | |fk]; try reflexivity.
    exfalso. apply (H fk). reflexivity.
  - intros kvs lk c El Ec H.
    rewrite py_get_obj, bind_ret, El, py_get_obj, bind_ret, Ec.
    destruct c; try contradiction; reflexivity.
Qed.

(** Only the first clone entry is read: when it has no truthy ['href'] the record is skipped, whatever the later entries hold. *)
Theorem process_repo_first_entry_only T kvs lk f rest w s :
  assoc "links" kvs = Some (JObj lk) ->
  assoc "clone" lk = Some (JList (JObj f :: rest)) ->
  truthy (match assoc "href" f with Some v => v | None => JNull end) = false ->
  process_repo T (JObj kvs) w s =
    (Ret tt, with_log s (M_no_clone_url (repo_name_of kvs))).
Proof.
  intros El Ec Hf. destruct (process_repo_cases T (JObj kvs) w s) as (_ & H1 & _).
  apply H1. simpl. rewrite El, Ec.
  destruct (assoc "href" f) as [v|]; [|reflexivity]. rewrite Hf. reflexivity.
Qed.

(** The loop over the records stops at the first record whose processing raises: the exception ends the loop and no later record is processed. *)
Theorem for_each_stops_at_failure T pre r post w s e s2 :
  fst (for_each T pre w s) = Ret tt ->
  process_repo T r w (snd (for_each T pre w s)) = (Raise e, s2) ->
  for_each T (pre ++ r :: post) w s = (Raise e, s2).
Proof.
  intros H1 H2. rewrite (for_each_app T pre (r :: post) w s H1). simpl.
  unfold bind at 1. rewrite H2. reflexivity.
Qed.

(** When no record raises and every failing [git] writes decodable output, the loop returns normally and runs one [git clone] per record with a truthy first URL, in the order of the records, and no HTTP request. *)
Theorem for_each_clones_in_order T rs w s :
  Forall (fun r => clone_href r <> None) rs -> runs_decodable w ->
  fst (for_each T rs w s) = Ret tt /\
  clone_events (new_events s (for_each T rs w s)) = clone_calls rs /\
  st_nrun (snd (for_each T rs w s)) = st_nrun s + length (clone_calls rs) /\
  st_nhttp (snd (for_each T rs w s)) = st_nhttp s.
Proof.
  intros Hf Hw. destruct (for_each_ok T rs w s Hf Hw) as (s' & E & evs & Tr & C & N & H).
  rewrite E. unfold new_events. simpl. rewrite Tr, skipn_new_events. auto.
Qed.

(** A first response with status 200 whose ['values'] is missing or falsy (null, false, 0, an empty string, list or dict) ends the listing with no repository after a single request. *)
Theorem get_repos_falsy_values fuel u t w s kvs :
  0 < fuel ->
  status_code (w_http w (st_nhttp s)) = 200%Z ->
  body (w_http w (st_nhttp s)) = JObj kvs ->
  truthy (match assoc "values" kvs with Some v => v | None => JList [] end) = false ->
  fst (get_repos fuel u t w s) = Ret [] /\
  new_events s (get_repos fuel u t w s) =
    [ELog (M_fetch_page 1 u); EHttpGet (page_request u t 1); ELog M_no_more] /\
  st_nhttp (snd (get_repos fuel u t w s)) = S (st_nhttp s).
Proof.
  intros Hf Hs Hb Hv. destruct fuel as [|fuel]; [lia|]. unfold get_repos.
  rewrite get_repos_loop_empty.
  - unfold new_events. simpl. rewrite <- app_assoc, skipn_new_events. auto.
  - unfold page_outcome. rewrite Hs, Hb. simpl. rewrite Hv. reflexivity.
Qed.

(** After any run of non-empty pages, a 200 response whose body is not a JSON object makes the listing raise [AttributeError]; one whose ['values'] is a non-zero number or [true] makes it raise [TypeError]. *)
Theorem get_repos_malformed_page fuel u t w s ls :
  let r := w_http w (st_nhttp s + length ls) in
  (forall i l, nth_error ls i = Some l ->
     page_outcome u (w_http w (st_nhttp s + i)) = PageItems l) ->
  length ls < fuel -> status_code r = 200%Z ->
  ((forall kvs, body r <> JObj kvs) ->
     fst (get_repos fuel u t w s) = Raise AttributeError) /\
  (forall kvs, body r = JObj kvs ->
     (exists n, assoc "values" kvs = Some (JNum n) /\ n <> 0%Z) \/
     assoc "values" kvs = Some (JBool true) ->
     fst (get_repos fuel u t w s) = Raise TypeError).
Proof.
  intros r Hp Hf Hs. split.
  - intros Hb. apply (get_repos_error_after ls); auto.
    unfold page_outcome. fold r. rewrite Hs. simpl.
    destruct (body r) as [| | | | |kvs]; try reflexivity.
    exfalso. apply (Hb kvs). reflexivity.
  - intros kvs Hb Hv. apply (get_repos_error_after ls); auto.
    unfold page_outcome. fold r. rewrite Hs, Hb. simpl.
    destruct Hv as [(n & Hv & Hn)|Hv]; rewrite Hv; [|reflexivity].
    simpl. apply Z.eqb_neq in Hn. rewrite Hn. reflexivity.
Qed.

(** The listing never changes the filesystem and never runs [git]. *)
Theorem get_repos_no_disk_no_git fuel u t w s :
  st_fs (snd (get_repos fuel u t w s)) = st_fs s /\
  clone_events (new_events s (get_repos fuel u t w s)) = [].
Proof.
  split; [apply get_repos_loop_pres_fs|].
  destruct (get_repos_loop_no_run fuel u t 1 [] w s) as (evs & Tr & N).
  unfold new_events, get_repos. rewrite Tr, skipn_new_events.
  apply clone_events_none, N.
Qed.

(** When [fetch] creates a missing target directory, the target and its ancestors are directories afterwards and every other path keeps its entry. *)
Theorem ensure_target_creation_frame T w s :
  st_fs s T = None -> fst (ensure_target T w s) = Ret tt ->
  forall q, st_fs (snd (ensure_target T w s)) q =
    if existsb (path_eqb q) (prefixes T) then Some NDir else st_fs s q.
Proof.
  intros HT. unfold ensure_target, bind, path_exists. simpl. rewrite HT. simpl.
  unfold try_except, makedirs, bind, emit. simpl.
  destruct (w_mkdir_fail w); [simpl; discriminate|].
  destruct (match T with [] => true | _ :: _ => false end); [simpl; discriminate|].
  destruct (existsb (fun q => is_file (st_fs s q)) (proper_prefixes T)) eqn:Ef;
    [simpl; discriminate|].
  intros _ q. simpl.
  destruct (existsb (path_eqb q) (prefixes T)) eqn:Eq; [|reflexivity].
  destruct (st_fs s q) as [[|c]|] eqn:Es; auto.
  apply existsb_exists in Eq as (q' & Hin & Heq). apply path_eqb_true in Heq. subst q'.
  unfold prefixes in Hin. apply in_app_iff in Hin as [Hin|[Hin|[]]].
  - assert (existsb (fun q => is_file (st_fs s q)) (proper_prefixes T) = true) as C.
    { apply existsb_exists. exists q. rewrite Es. auto. }
    congruence.
  - congruence.
Qed.

(** When the target directory is usable and the first page of the listing is empty, [fetch] returns normally, runs no [git], and ends by logging that the user has no repositories. *)
Theorem fetch_no_repositories fuel w s :
  let u := username (st_params s) in
  dir_ready w s (target_directory (st_params s)) ->
  page_outcome u (w_http w (st_nhttp s)) = PageEmpty ->
  0 < fuel ->
  fst (fetch fuel w s) = Ret tt /\
  clone_events (new_events s (fetch fuel w s)) = [] /\
  exists evs, new_events s (fetch fuel w s) = evs ++ [ELog (M_no_repos u)].
Proof.
  intros u Hd He Hf.
  destruct (fetch_to_clone_phase fuel w s [] Hd) as (s2 & evs & E & Tr & C & _).
  - intros [|i] l Hl; discriminate.
  - rewrite Nat.add_0_r. exact He.
  - exact Hf.
  - rewrite E. unfold new_events. simpl. rewrite Tr, <- app_assoc, skipn_new_events.
    split; [reflexivity|]. split.
    + rewrite clone_events_app, C. reflexivity.
    + exists evs. reflexivity.
Qed.

(** When the target directory is usable, the listing ends on an empty page after non-empty pages, no record raises and every failing [git] writes decodable output, [fetch] returns normally after one [git clone] per record with a URL, in listing order; it logs the number of records before the clones and the completion message last. *)
Theorem fetch_clones_all fuel w s ls :
  let u := username (st_params s) in
  dir_ready w s (target_directory (st_params s)) ->
  (forall i l, nth_error ls i = Some l ->
     page_outcome u (w_http w (st_nhttp s + i)) = PageItems l) ->
  page_outcome u (w_http w (st_nhttp s + length ls)) = PageEmpty ->
  length ls < fuel ->
  concat ls <> [] ->
  Forall (fun r => clone_href r <> None) (concat ls) ->
  runs_decodable w ->
  fst (fetch fuel w s) = Ret tt /\
  clone_events (new_events s (fetch fuel w s)) = clone_calls (concat ls) /\
  st_nrun (snd (fetch fuel w s)) = st_nrun s + length (clone_calls (concat ls)) /\
  exists pre mid, new_events s (fetch fuel w s) =
    pre ++ ELog (M_found (length (concat ls))) :: mid ++ [ELog M_all_done] /\
    clone_events pre = [] /\ clone_events mid = clone_calls (concat ls).
Proof.
  intros u Hd Hp He Hf Hne Hr Hw.
  destruct (fetch_to_clone_phase fuel w s ls Hd Hp He Hf) as (s2 & evs & E & Tr & C & N).
  rewrite E. unfold clone_phase.
  destruct (concat ls) as [|r0 rs0] eqn:Ec; [congruence|].
  set (s3 := with_log s2 (M_found (length (r0 :: rs0)))).
  destruct (for_each_ok (target_directory (st_params s)) (r0 :: rs0) w s3 Hr Hw)
    as (s4 & E4 & evs4 & T4 & C4 & N4 & _).
  assert (Ecp : (log (M_found (length (r0 :: rs0))) ;;
                 for_each (target_directory (st_params s)) (r0 :: rs0) ;;
                 log M_all_done) w s2 = (Ret tt, with_log s4 M_all_done)).
  { unfold bind. change (log (M_found (length (r0 :: rs0))) w s2) with (Ret tt, s3).
    cbv beta iota zeta. rewrite E4. reflexivity. }
  rewrite Ecp. unfold new_events. simpl.
  rewrite T4. unfold s3, with_log. simpl. rewrite Tr.
  rewrite <- !app_assoc. simpl. rewrite skipn_new_events.
  split; [reflexivity|]. split; [|split].
  - rewrite clone_events_app, C. simpl. rewrite clone_events_app, C4. simpl.
    rewrite app_nil_r. reflexivity.
  - rewrite N4. unfold s3. simpl. rewrite N. reflexivity.
  - exists evs, evs4. split; [reflexivity|]. split; [exact C|exact C4].
Qed.

(** ** Witnesses of the further properties *)

Lemma clone_repo_ascii_stderr_witness :
  fst (clone_repo (JStr "u2") ["home"; "repos"] (JStr "b")
         (demo_world [] [RunExit 128 ascii_err]) (init_state demo_params no_fs)) = Ret tt.
Proof.
  apply (clone_repo_ascii_stderr (JStr "u2") ["home"; "repos"] (JStr "b")
           (demo_world [] [RunExit 128 ascii_err]) (init_state demo_params no_fs)).
  intros code err E. simpl in E. inversion E; subst.
  repeat (constructor; [reflexivity|]). constructor.
Defined.

Lemma process_repo_first_entry_only_witness :
  process_repo ["home"; "repos"] two_href_rec (demo_world [] [])
    (init_state demo_params no_fs) =
  (Ret tt, with_log (init_state demo_params no_fs) (M_no_clone_url (JStr "d"))).
Proof.
  exact (process_repo_first_entry_only ["home"; "repos"]
           [("name", JStr "d");
            ("links", JObj [("clone", JList [JObj [("name", JStr "ssh")];
                                             JObj [("href", JStr "u4")]])])]
           [("clone", JList [JObj [("name", JStr "ssh")]; JObj [("href", JStr "u4")]])]
           [("name", JStr "ssh")] [JObj [("href", JStr "u4")]]
           (demo_world [] []) (init_state demo_params no_fs) eq_refl eq_refl eq_refl).
Defined.

Lemma for_each_stops_at_failure_witness :
  exists s2,
    for_each ["home"; "repos"] ([repo_rec "a" "u1"] ++ empty_clone_rec :: [repo_rec "c" "u3"])
      (demo_world [] []) (init_state demo_params no_fs) = (Raise IndexError, s2).
Proof.
  eexists.
  apply (for_each_stops_at_failure ["home"; "repos"] [repo_rec "a" "u1"] empty_clone_rec
           [repo_rec "c" "u3"] (demo_world [] []) (init_state demo_params no_fs) IndexError
           (snd (process_repo ["home"; "repos"] empty_clone_rec (demo_world [] [])
                   (snd (for_each ["home"; "repos"] [repo_rec "a" "u1"] (demo_world [] [])
                           (init_state demo_params no_fs)))))).
  - vm_compute. reflexivity.
  - vm_compute. reflexivity.
Defined.

Lemma for_each_clones_in_order_witness :
  clone_events (new_events (init_state demo_params no_fs)
    (for_each ["home"; "repos"] [repo_rec "a" "u1"; no_links_rec; repo_rec "c" "u3"]
       (demo_world [] [RunExit 0 []; RunExit 128 ascii_err])
       (init_state demo_params no_fs))) =
  [clone_args (JStr "u1"); clone_args (JStr "u3")].
Proof.
  refine (proj1 (proj2 (for_each_clones_in_order ["home"; "repos"]
            [repo_rec "a" "u1"; no_links_rec; repo_rec "c" "u3"]
            (demo_world [] [RunExit 0 []; RunExit 128 ascii_err])
            (init_state demo_params no_fs) _ _))).
  - repeat constructor; vm_compute; discriminate.
  - intros [|[|[|n]]] code err H Hz; simpl in H; inversion H; subst;
    first [reflexivity | discriminate Hz].
Defined.

Lemma get_repos_falsy_values_witness :
  fst (get_repos 1 "alice" "t0k" null_values_world (init_state demo_params no_fs)) = Ret [].
Proof.
  refine (proj1 (get_repos_falsy_values 1 "alice" "t0k" null_values_world
            (init_state demo_params no_fs) [("values", JNull)] _ _ _ _)).
  - lia.
  - reflexivity.
  - reflexivity.
  - reflexivity.
Defined.

Lemma get_repos_malformed_page_witness :
  fst (get_repos 2 "alice" "t0k" list_body_world (init_state demo_params no_fs)) =
  Raise AttributeError.
Proof.
  refine (proj1 (get_repos_malformed_page 2 "alice" "t0k" list_body_world
            (init_state demo_params no_fs) [[repo_rec "a" "u1"]] _ _ _) _).
  - intros [|[|i]] l Hl; simpl in Hl; try discriminate.
    inversion Hl; subst. reflexivity.
  - simpl. lia.
  - reflexivity.
  - intros kvs Hk. discriminate Hk.
Defined.

Lemma ensure_target_creation_frame_witness :
  st_fs (snd (ensure_target ["home"; "repos"] (demo_world [] [])
                (init_state demo_params no_fs))) ["home"] = Some NDir.
Proof.
  exact (ensure_target_creation_frame ["home"; "repos"] (demo_world [] [])
           (init_state demo_params no_fs) eq_refl eq_refl ["home"]).
Defined.

Lemma fetch_no_repositories_witness :
  fst (fetch 1 (demo_world [] []) (init_state demo_params no_fs)) = Ret tt.
Proof.
  refine (proj1 (fetch_no_repositories 1 (demo_world [] [])
            (init_state demo_params no_fs) _ _ _)).
  - right. repeat split; try reflexivity. discriminate.
  - reflexivity.
  - lia.
Defined.

Lemma fetch_clones_all_witness :
  clone_events (new_events (init_state demo_params no_fs)
    (fetch 5 two_pages_world (init_state demo_params no_fs))) =
  [clone_args (JStr "u1"); clone_args (JStr "u3")].
Proof.
  refine (proj1 (proj2 (fetch_clones_all 5 two_pages_world (init_state demo_params no_fs)
            [[repo_rec "a" "u1"; no_links_rec]; [repo_rec "c" "u3"]] _ _ _ _ _ _ _))).
  - right. repeat split; try reflexivity. discriminate.
  - intros [|[|[|i]]] l Hl; simpl in Hl; inversion Hl; reflexivity.
  - reflexivity.
  - simpl. lia.
  - discriminate.
  - simpl. repeat constructor; vm_compute; discriminate.
  - intros [|[|[|n]]] code err H Hz; simpl in H; inversion H; subst;
    first [reflexivity | discriminate Hz].
Defined.
